(** * Voice-driven advisory client: session controller

    A shallow embedding of the two client pages of the repository:

    - [Irrigation]: the irrigation-advice page ([IrrigationAdvicePage], with
      [fetchAgent], [startRecording], [stopRecording], [handleSubmit]);
    - [Home]: the landing page ([Home], with [sendToBackend],
      [startRecording], [stopRecording]).

    React state and refs are fields of an explicit world record, the browser
    (network, microphone, recorder, audio element) is a set of outcomes handed
    to each handler, and every observable effect (request, console output,
    alert, playback attempt, navigation) is appended to a trace. A handler
    runs from its call to its end with the outcomes of its [await]s given;
    other handlers running between two [await]s of one handler are not
    modelled. *)

From Stdlib Require Import String Ascii.
From Stdlib Require Import ZArith NArith List Bool Lia.
From Stdlib Require DecimalN.
From Stdlib Require Import Floats.PrimFloat Floats.SpecFloat Floats.FloatOps.
Import ListNotations.

Set Implicit Arguments.

(* ===================================================================== *)
(** * JavaScript values used by the pages *)
(* ===================================================================== *)

Module Js.

(** A JavaScript string is a sequence of UTF-16 code units. *)
Definition jsstring := list N.

(** Source text is UTF-8; [utf16] reads the bytes of a literal back into
    the code units the JavaScript engine sees. *)
Fixpoint utf16 (bs : list N) : jsstring :=
  match bs with
  | [] => []
  | b0 :: t0 =>
      if (b0 <? 128)%N then b0 :: utf16 t0
      else
        match t0 with
        | [] => []
        | b1 :: t1 =>
            if (b0 <? 224)%N
            then ((b0 mod 32) * 64 + b1 mod 64)%N :: utf16 t1
            else
              match t1 with
              | [] => []
              | b2 :: t2 =>
                  if (b0 <? 240)%N
                  then ((b0 mod 16) * 4096 + (b1 mod 64) * 64 + b2 mod 64)%N
                         :: utf16 t2
                  else
                    match t2 with
                    | [] => []
                    | b3 :: t3 =>
                        let cp := ((b0 mod 8) * 262144 + (b1 mod 64) * 4096
                                   + (b2 mod 64) * 64 + b3 mod 64)%N in
                        let v := (cp - 65536)%N in
                        (55296 + v / 1024)%N :: (56320 + v mod 1024)%N
                          :: utf16 t3
                    end
              end
        end
  end.

Definition u (s : string) : jsstring :=
  utf16 (map N_of_ascii (list_ascii_of_string s)).
Arguments u s%_string.

Definition code_eqb (a b : N) : bool := (a =? b)%N.

Fixpoint str_eqb (a b : jsstring) : bool :=
  match a, b with
  | [], [] => true
  | x :: a', y :: b' => code_eqb x y && str_eqb a' b'
  | _, _ => false
  end.

(** Numbers are IEEE 754 binary64 values. *)
Definition number := float.

(** ToBoolean. *)
Definition str_truthy (s : jsstring) : bool :=
  match s with [] => false | _ :: _ => true end.

Definition num_truthy (x : number) : bool :=
  negb (PrimFloat.is_zero x || PrimFloat.is_nan x).

(** [o || d] where [o] may be [undefined]. *)
Definition or_else {A} (truthy : A -> bool) (o : option A) (d : A) : A :=
  match o with
  | Some a => if truthy a then a else d
  | None => d
  end.

(** Optional chaining [o?.f]. *)
Definition chain {A B} (o : option A) (f : A -> option B) : option B :=
  match o with Some a => f a | None => None end.

Definition is_digit (c : N) : bool := ((48 <=? c) && (c <=? 57))%N.

Fixpoint digits_value (acc : Z) (ds : jsstring) : Z :=
  match ds with
  | [] => acc
  | d :: ds' => digits_value (10 * acc + (Z.of_N d - 48)) ds'
  end.

(** [Number(s)] for a string of decimal digits: the binary64 value nearest
    to the integer the digits denote (ties to even); the empty string gives
    zero. *)
Definition Number (ds : jsstring) : number :=
  SF2Prim (binary_normalize prec emax (digits_value 0 ds) 0 false).

(** Decimal rendering of a non-negative integer, as a template literal
    prints an HTTP status. *)
Fixpoint uint_codes (d : Decimal.uint) : jsstring :=
  match d with
  | Decimal.Nil => []
  | Decimal.D0 d' => 48%N :: uint_codes d'
  | Decimal.D1 d' => 49%N :: uint_codes d'
  | Decimal.D2 d' => 50%N :: uint_codes d'
  | Decimal.D3 d' => 51%N :: uint_codes d'
  | Decimal.D4 d' => 52%N :: uint_codes d'
  | Decimal.D5 d' => 53%N :: uint_codes d'
  | Decimal.D6 d' => 54%N :: uint_codes d'
  | Decimal.D7 d' => 55%N :: uint_codes d'
  | Decimal.D8 d' => 56%N :: uint_codes d'
  | Decimal.D9 d' => 57%N :: uint_codes d'
  end.

Definition decimal (n : N) : jsstring :=
  match n with
  | N0 => [48%N]
  | _ => uint_codes (N.to_uint n)
  end.

(** WhiteSpace and LineTerminator code units, as [String.prototype.trim]
    strips them. *)
Definition is_space (c : N) : bool :=
  ((9 <=? c) && (c <=? 13) || (c =? 32) || (c =? 160) || (c =? 5760)
   || (8192 <=? c) && (c <=? 8202) || (c =? 8232) || (c =? 8233)
   || (c =? 8239) || (c =? 8287) || (c =? 12288) || (c =? 65279))%N.

Fixpoint trim_start (s : jsstring) : jsstring :=
  match s with
  | c :: s' => if is_space c then trim_start s' else s
  | [] => []
  end.

Definition trim (s : jsstring) : jsstring :=
  rev (trim_start (rev (trim_start s))).

(** Thrown values: an error name and its message. *)
Record Error := mkError { err_name : jsstring; err_message : jsstring }.

Definition new_Error (msg : jsstring) : Error := mkError (u "Error") msg.

End Js.

Import Js.

(* ===================================================================== *)
(** * Regular expressions

    The fragment the pages use: literal text and capture groups that repeat
    one character class, greedily or lazily, matched by backtracking in the
    order ECMAScript prescribes (no flags: code-unit matching, first match
    from the left). *)
(* ===================================================================== *)

Module RegExp.

Inductive cclass :=
| Dot        (* [.]      : anything but a line terminator *)
| Digit      (* [\d]     : 0-9 *)
| DigitDot.  (* [[0-9.]] : 0-9 and the full stop *)

Definition in_class (c : cclass) (x : N) : bool :=
  match c with
  | Dot => negb ((x =? 10) || (x =? 13) || (x =? 8232) || (x =? 8233))%N
  | Digit => is_digit x
  | DigitDot => is_digit x || (x =? 46)%N
  end.

Inductive greed := Greedy | Lazy.

Inductive node :=
| Lit (l : jsstring)
| Group (g : greed) (c : cclass) (least : nat).
    (* a capture group around a star or plus of one class: at least
       [least] repetitions of [c], greedy or lazy *)

Definition regexp := list node.

Fixpoint strip_prefix (l s : jsstring) : option jsstring :=
  match l, s with
  | [], _ => Some s
  | x :: l', y :: s' => if code_eqb x y then strip_prefix l' s' else None
  | _ :: _, [] => None
  end.

Section Repeat.
Variable c : cclass.
Variable least : nat.
(** The rest of the pattern, run on what is left of the input. *)
Variable k : jsstring -> option (list jsstring * jsstring).

Definition close (taken s : jsstring) : option (list jsstring * jsstring) :=
  if (least <=? length taken)%nat
  then match k s with
       | Some (caps, rest) => Some (taken :: caps, rest)
       | None => None
       end
  else None.

(** Greedy: take as many as possible, give back one at a time. *)
Fixpoint greedy (taken s : jsstring) : option (list jsstring * jsstring) :=
  match s with
  | x :: s' =>
      if in_class c x
      then match greedy (taken ++ [x]) s' with
           | Some r => Some r
           | None => close taken s
           end
      else close taken s
  | [] => close taken s
  end.

(** Lazy: take as few as possible, take one more on failure. *)
Fixpoint lazy_ (taken s : jsstring) : option (list jsstring * jsstring) :=
  match close taken s with
  | Some r => Some r
  | None =>
      match s with
      | x :: s' => if in_class c x then lazy_ (taken ++ [x]) s' else None
      | [] => None
      end
  end.
End Repeat.

(** Match the pattern at the start of [s]: the captures and the unread
    rest of the input. *)
Fixpoint match_here (re : regexp) (s : jsstring)
  : option (list jsstring * jsstring) :=
  match re with
  | [] => Some ([], s)
  | Lit l :: re' =>
      match strip_prefix l s with
      | Some s' => match_here re' s'
      | None => None
      end
  | Group Greedy c least :: re' => greedy c least (match_here re') [] s
  | Group Lazy c least :: re' => lazy_ c least (match_here re') [] s
  end.

(** [s.match(re)] for a pattern without the global flag: [null], or the
    array of the matched text followed by the captures. *)
Fixpoint exec (re : regexp) (s : jsstring) : option (list jsstring) :=
  match match_here re s with
  | Some (caps, rest) =>
      Some (firstn (length s - length rest) s :: caps)
  | None =>
      match s with
      | [] => None
      | _ :: s' => exec re s'
      end
  end.

(** [m[i]] on a match array. *)
Definition at_ (m : list jsstring) (i : nat) : jsstring := nth i m [].

End RegExp.

(* ===================================================================== *)
(** * The backend's JSON reply *)
(* ===================================================================== *)

Module Raw.

Record Location := { name : option jsstring }.
Record Condition := { text : option jsstring }.
Record Current := { condition : option Condition; temp_c : option number }.
Record Weather := { location : option Location; current : option Current }.
Record Soil := {
  moisture : option number;
  ph : option number;
  nitrogen : option jsstring;
  phosphorus : option jsstring;
  potassium : option jsstring }.

(** The reply of [POST /agent]. The irrigation page declares the first four
    keys ([AgentResponse]), the landing page [message], [audio_url],
    [redirect] and [redirect_url]; an absent key is [None]. A reply is taken
    at the type the pages declare for it: a JSON object whose keys, when
    present, hold values of these types. A body that parses to [null], or a
    key holding a value of another type (on which the handlers can throw a
    [TypeError] after [res.json()] has succeeded), has no counterpart
    here. *)
Record AgentResponse := {
  message : option jsstring;
  audio_url : option jsstring;
  weather : option Weather;
  soil : option Soil;
  redirect : option bool;
  redirect_url : option jsstring }.

End Raw.

(** ** Page-side types of the irrigation page *)

Inductive num_or_str :=
| OfNumber (x : number)
| OfString (s : jsstring).

Record Weather := {
  location : jsstring;
  condition : jsstring;
  temp_c : num_or_str }.

Record Soil := {
  moisture : number;
  ph : option number;
  nitrogen : option jsstring;
  phosphorus : option jsstring;
  potassium : option jsstring }.

(* ===================================================================== *)
(** * Browser objects and observable effects *)
(* ===================================================================== *)

Record Blob := { bytes : list N; type_ : jsstring }.

Definition size (b : Blob) : nat := length (bytes b).

(** [new Blob(parts, { type })]: the parts' bytes, one after the other. *)
Definition new_Blob (parts : list Blob) (type : jsstring) : Blob :=
  {| bytes := concat (map bytes parts); type_ := type |}.

Inductive FormValue :=
| Text (s : jsstring)
| File (b : Blob) (filename : jsstring).

Definition FormData := list (jsstring * FormValue).

Inductive event :=
| Fetch (url : jsstring) (body : FormData)      (* a POST request *)
| ConsoleLog (label : jsstring) (data : Raw.AgentResponse)
| ConsoleWarn (label : jsstring) (e : Error)
| ConsoleError (label : jsstring) (e : Error)
| Alert (msg : jsstring)
| Play (src : jsstring)                         (* [audio.play()] on a new Audio *)
| Navigate (url : jsstring).                    (* [router.push(url)] *)

(** What the browser answers to the one request, playback attempt and
    microphone acquisition a handler makes. *)
Inductive Body :=
| NotJson (e : Error)
| Json (data : Raw.AgentResponse).

Inductive FetchOutcome :=
| NetworkFailure (e : Error)
| Response (status : N) (body : Body).

Inductive PlayOutcome :=
| Started
| Rejected (e : Error).

Inductive MicOutcome :=
| Granted
| Refused (e : Error).

Inductive RecorderOutcome :=
| Constructed
| Unsupported (e : Error).

(** [res.ok]: the status is in the range 200-299. *)
Definition ok (status : N) : bool := ((200 <=? status) && (status <=? 299))%N.

Definition backend : jsstring :=
  u "https://backend-agenticai-production.up.railway.app".

(** ** Handlers as state transformers that may throw

    A thrown error keeps every update made before it, as in JavaScript. *)

Inductive completion (A : Type) :=
| Normal (a : A)
| Throw (e : Error).
Arguments Normal {A} a.
Arguments Throw {A} e.

Definition M (W A : Type) : Type := W -> completion A * W.

Definition ret {W A} (a : A) : M W A := fun w => (Normal a, w).

Definition bind {W A B} (m : M W A) (f : A -> M W B) : M W B :=
  fun w =>
    match m w with
    | (Normal a, w') => f a w'
    | (Throw e, w') => (Throw e, w')
    end.

Definition throw {W A} (e : Error) : M W A := fun w => (Throw e, w).

Definition try_catch {W A} (body : M W A) (handler : Error -> M W A) : M W A :=
  fun w =>
    match body w with
    | (Normal a, w') => (Normal a, w')
    | (Throw e, w') => handler e w'
    end.

Definition try_catch_finally {W A}
  (body : M W A) (handler : Error -> M W A) (final : M W unit) : M W A :=
  fun w =>
    let (r, w1) := try_catch body handler w in
    match final w1 with
    | (Normal _, w2) => (r, w2)
    | (Throw e, w2) => (Throw e, w2)
    end.

Definition when {W} (b : bool) (m : M W unit) : M W unit :=
  if b then m else ret tt.

Definition get {W A} (f : W -> A) : M W A := fun w => (Normal (f w), w).

Definition modify {W} (f : W -> W) : M W unit := fun w => (Normal tt, f w).

(** The world a handler leaves behind. *)
Definition run {W A} (m : M W A) (w : W) : W := snd (m w).

Declare Scope handler_scope.
Delimit Scope handler_scope with handler.
Notation "x <- m ;; k" := (bind m (fun x => k))
  (at level 61, m at next level, right associativity) : handler_scope.
Notation "m ;; k" := (bind m (fun _ => k))
  (at level 61, right associativity) : handler_scope.
Open Scope handler_scope.

(** ** MediaRecorder

    The recorder of the MediaStream Recording API, as far as the pages drive
    it: [start()] on a new recorder begins recording; [stop()] on a recording
    recorder makes it inactive and queues the task that fires [dataavailable]
    with the data gathered so far and then [stop]; [stop()] on an inactive
    recorder does nothing in a browser that follows the current text of the
    API, and throws [InvalidStateError] in one that follows the earlier text
    ([strict] below). [closure] is what the page's [onstop] handler
    captured. *)

Module MediaRecorder.

Inductive RecordingState := inactive | recording.

Record t (E : Type) := {
  state : RecordingState;
  stop_task : bool;
  closure : E }.

Definition create {E} (e : E) : t E :=
  {| state := inactive; stop_task := false; closure := e |}.

Definition start {E} (r : t E) : t E :=
  {| state := recording; stop_task := stop_task r; closure := closure r |}.

Definition stop {E} (r : t E) : t E :=
  match state r with
  | inactive => r
  | recording =>
      {| state := inactive; stop_task := true; closure := closure r |}
  end.

Definition stopped {E} (r : t E) : t E :=
  {| state := state r; stop_task := false; closure := closure r |}.

Definition is_recording {E} (r : t E) : bool :=
  match state r with recording => true | inactive => false end.

Definition InvalidStateError : Error :=
  mkError (u "InvalidStateError") (u "The MediaRecorder's state is 'inactive'.").

(** Whether [stop()] on [r] throws, in a strict browser or a lenient one. *)
Definition stop_throws {E} (strict : bool) (r : t E) : bool :=
  strict && negb (is_recording r).

(** Recorders are kept in a store and named by their position in it. *)
Fixpoint update {E} (rs : list (t E)) (i : nat) (f : t E -> t E) : list (t E) :=
  match rs, i with
  | [], _ => []
  | r :: rs', O => f r :: rs'
  | r :: rs', S i' => r :: update rs' i' f
  end.

End MediaRecorder.

(** A chunk that carries data ([e.data.size > 0]). *)
Definition has_data (b : Blob) : bool := (0 <? size b)%nat.

(** The control the voice panel renders: [Start Talking] (disabled while a
    request is in flight) when not recording, [Stop] when recording. *)
Inductive control :=
| StartButton (disabled : bool)
| StopButton.

(* ===================================================================== *)
(** * The irrigation-advice page *)
(* ===================================================================== *)

Module Irrigation.

(** React state ([query] ... [soil]), refs ([mediaRecorderRef],
    [audioChunksRef], [audioRef]: the source of the last Audio element), the
    recorders created so far (each with the [query] its [onstop] closure
    captured) and the trace of effects, most recent first. *)
Record World := {
  query : jsstring;
  agentText : jsstring;
  loading : bool;
  recording : bool;
  weather : option Weather;
  soil : option Soil;
  mediaRecorderRef : option nat;
  audioChunksRef : list Blob;
  audioRef : option jsstring;
  recorders : list (MediaRecorder.t jsstring);
  trace : list event }.

Definition setAgentText (v : jsstring) : M World unit :=
  modify (fun w =>
    {| query := query w; agentText := v; loading := loading w;
       recording := recording w; weather := weather w; soil := soil w;
       mediaRecorderRef := mediaRecorderRef w;
       audioChunksRef := audioChunksRef w; audioRef := audioRef w;
       recorders := recorders w; trace := trace w |}).

Definition setLoading (v : bool) : M World unit :=
  modify (fun w =>
    {| query := query w; agentText := agentText w; loading := v;
       recording := recording w; weather := weather w; soil := soil w;
       mediaRecorderRef := mediaRecorderRef w;
       audioChunksRef := audioChunksRef w; audioRef := audioRef w;
       recorders := recorders w; trace := trace w |}).

Definition setRecording (v : bool) : M World unit :=
  modify (fun w =>
    {| query := query w; agentText := agentText w; loading := loading w;
       recording := v; weather := weather w; soil := soil w;
       mediaRecorderRef := mediaRecorderRef w;
       audioChunksRef := audioChunksRef w; audioRef := audioRef w;
       recorders := recorders w; trace := trace w |}).

Definition setWeather (v : option Weather) : M World unit :=
  modify (fun w =>
    {| query := query w; agentText := agentText w; loading := loading w;
       recording := recording w; weather := v; soil := soil w;
       mediaRecorderRef := mediaRecorderRef w;
       audioChunksRef := audioChunksRef w; audioRef := audioRef w;
       recorders := recorders w; trace := trace w |}).

Definition setSoil (v : option Soil) : M World unit :=
  modify (fun w =>
    {| query := query w; agentText := agentText w; loading := loading w;
       recording := recording w; weather := weather w; soil := v;
       mediaRecorderRef := mediaRecorderRef w;
       audioChunksRef := audioChunksRef w; audioRef := audioRef w;
       recorders := recorders w; trace := trace w |}).

Definition set_mediaRecorderRef (v : option nat) : M World unit :=
  modify (fun w =>
    {| query := query w; agentText := agentText w; loading := loading w;
       recording := recording w; weather := weather w; soil := soil w;
       mediaRecorderRef := v;
       audioChunksRef := audioChunksRef w; audioRef := audioRef w;
       recorders := recorders w; trace := trace w |}).

Definition set_audioChunksRef (v : list Blob) : M World unit :=
  modify (fun w =>
    {| query := query w; agentText := agentText w; loading := loading w;
       recording := recording w; weather := weather w; soil := soil w;
       mediaRecorderRef := mediaRecorderRef w;
       audioChunksRef := v; audioRef := audioRef w;
       recorders := recorders w; trace := trace w |}).

Definition set_audioRef (v : option jsstring) : M World unit :=
  modify (fun w =>
    {| query := query w; agentText := agentText w; loading := loading w;
       recording := recording w; weather := weather w; soil := soil w;
       mediaRecorderRef := mediaRecorderRef w;
       audioChunksRef := audioChunksRef w; audioRef := v;
       recorders := recorders w; trace := trace w |}).

Definition set_recorders (v : list (MediaRecorder.t jsstring)) : M World unit :=
  modify (fun w =>
    {| query := query w; agentText := agentText w; loading := loading w;
       recording := recording w; weather := weather w; soil := soil w;
       mediaRecorderRef := mediaRecorderRef w;
       audioChunksRef := audioChunksRef w; audioRef := audioRef w;
       recorders := v; trace := trace w |}).

Definition emit (e : event) : M World unit :=
  modify (fun w =>
    {| query := query w; agentText := agentText w; loading := loading w;
       recording := recording w; weather := weather w; soil := soil w;
       mediaRecorderRef := mediaRecorderRef w;
       audioChunksRef := audioChunksRef w; audioRef := audioRef w;
       recorders := recorders w; trace := e :: trace w |}).

(** ** Browser calls *)

(** [await fetch(url, { method: "POST", body })]: the status and body of the
    reply, or the network error thrown. *)
Definition fetch (url : jsstring) (body : FormData) (net : FetchOutcome)
  : M World (N * Body) :=
  emit (Fetch url body) ;;
  match net with
  | NetworkFailure e => throw e
  | Response status b => ret (status, b)
  end.

(** [await res.json()]. *)
Definition json (b : Body) : M World Raw.AgentResponse :=
  match b with
  | NotJson e => throw e
  | Json data => ret data
  end.

(** [await audio.play()]. *)
Definition audio_play (src : jsstring) (play : PlayOutcome) : M World unit :=
  emit (Play src) ;;
  match play with
  | Started => ret tt
  | Rejected e => throw e
  end.

(** ** [fetchAgent] *)

Definition weatherRe : RegExp.regexp :=
  [ RegExp.Lit (u "Weather in "); RegExp.Group RegExp.Lazy RegExp.Dot 0;
    RegExp.Lit (u " is "); RegExp.Group RegExp.Greedy RegExp.Dot 0;
    RegExp.Lit (u " with temperature ");
    RegExp.Group RegExp.Greedy RegExp.DigitDot 1;
    RegExp.Lit (u "°C") ].

Definition soilRe : RegExp.regexp :=
  [ RegExp.Lit (u "soil moisture "); RegExp.Group RegExp.Greedy RegExp.Digit 1;
    RegExp.Lit (u "%") ].

(** The object built from a structured [data.weather]. *)
Definition weatherOfObject (o : Raw.Weather) : Weather :=
  {| location :=
       or_else str_truthy (chain (Raw.location o) Raw.name) (u "Unknown");
     condition :=
       or_else str_truthy
         (chain (chain (Raw.current o) Raw.condition) Raw.text) (u "N/A");
     temp_c :=
       OfNumber (or_else num_truthy (chain (Raw.current o) Raw.temp_c) 0%float) |}.

(** The object built from a match of [weatherRe]. *)
Definition weatherOfMatch (m : list jsstring) : Weather :=
  {| location := RegExp.at_ m 1;
     condition := RegExp.at_ m 2;
     temp_c := OfString (RegExp.at_ m 3) |}.

(** The object built from a structured [data.soil]. *)
Definition soilOfObject (o : Raw.Soil) : Soil :=
  {| moisture := or_else num_truthy (Raw.moisture o) 0%float;
     ph := Some (or_else num_truthy (Raw.ph o) 7%float);
     nitrogen := Some (or_else str_truthy (Raw.nitrogen o) (u "medium"));
     phosphorus := Some (or_else str_truthy (Raw.phosphorus o) (u "medium"));
     potassium := Some (or_else str_truthy (Raw.potassium o) (u "medium")) |}.

(** The object built from a match of [soilRe]: [{ moisture }] alone. *)
Definition soilOfMatch (m : list jsstring) : Soil :=
  {| moisture := Number (RegExp.at_ m 1);
     ph := None; nitrogen := None; phosphorus := None; potassium := None |}.

(** The [Weather] block of [fetchAgent]: the structured object if there is
    one, else the pattern on a non-empty message. *)
Definition showWeather (data : Raw.AgentResponse) : M World unit :=
  match Raw.weather data with
  | Some o => setWeather (Some (weatherOfObject o))
  | None =>
      match Raw.message data with
      | Some msg =>
          if str_truthy msg
          then match RegExp.exec weatherRe msg with
               | Some weatherMatch => setWeather (Some (weatherOfMatch weatherMatch))
               | None => ret tt
               end
          else ret tt
      | None => ret tt
      end
  end.

(** The [Soil] block of [fetchAgent]. *)
Definition showSoil (data : Raw.AgentResponse) : M World unit :=
  match Raw.soil data with
  | Some o => setSoil (Some (soilOfObject o))
  | None =>
      match Raw.message data with
      | Some msg =>
          if str_truthy msg
          then match RegExp.exec soilRe msg with
               | Some soilMatch => setSoil (Some (soilOfMatch soilMatch))
               | None => ret tt
               end
          else ret tt
      | None => ret tt
      end
  end.

(** The [Audio] block of [fetchAgent]: a refused playback is logged as a
    warning and goes no further. *)
Definition playReply (data : Raw.AgentResponse) (play : PlayOutcome)
  : M World unit :=
  match Raw.audio_url data with
  | Some a =>
      if str_truthy a
      then
        let src := backend ++ a in
        set_audioRef (Some src) ;;
        try_catch (audio_play src play)
          (fun err => emit (ConsoleWarn (u "Audio autoplay blocked:") err))
      else ret tt
  | None => ret tt
  end.

Definition fetchAgent (net : FetchOutcome) (play : PlayOutcome)
  (formData : FormData) : M World unit :=
  setLoading true ;;
  setAgentText [] ;;
  setWeather None ;;
  setSoil None ;;
  try_catch_finally
    ( res <- fetch (backend ++ u "/agent") formData net ;;
      when (negb (ok (fst res)))
        (throw (new_Error (u "Server error: " ++ decimal (fst res)))) ;;
      data <- json (snd res) ;;
      setAgentText (or_else str_truthy (Raw.message data) []) ;;
      showWeather data ;;
      showSoil data ;;
      playReply data play )
    (fun err =>
       emit (ConsoleError (u "Error:") err) ;;
       emit (Alert (u "Failed to fetch advice. Try again.")))
    (setLoading false).

(** ** Recording *)

(** [recorder.ondataavailable]. *)
Definition ondataavailable (data : Blob) : M World unit :=
  if (0 <? size data)%nat
  then chunks <- get audioChunksRef ;; set_audioChunksRef (chunks ++ [data])
  else ret tt.

(** [recorder.onstop], with the [query] the closure captured. *)
Definition onstop (q : jsstring) (net : FetchOutcome) (play : PlayOutcome)
  : M World unit :=
  chunks <- get audioChunksRef ;;
  let audioBlob := new_Blob chunks (u "audio/webm") in
  let formData := [(u "audio", File audioBlob (u "voice.webm"))] in
  let formData :=
    if negb (str_eqb (trim q) [])
    then formData ++ [(u "question", Text q)]
    else formData in
  fetchAgent net play formData.

Definition startRecording (mic : MicOutcome) (ctor : RecorderOutcome)
  : M World unit :=
  try_catch
    ( match mic with Granted => ret tt | Refused e => throw e end ;;
      match ctor with Constructed => ret tt | Unsupported e => throw e end ;;
      q <- get query ;;
      rs <- get recorders ;;
      let recorder := length rs in
      set_recorders (rs ++ [MediaRecorder.create q]) ;;
      set_audioChunksRef [] ;;
      set_mediaRecorderRef (Some recorder) ;;
      rs <- get recorders ;;
      set_recorders (MediaRecorder.update rs recorder MediaRecorder.start) ;;
      setRecording true )
    (fun err =>
       emit (ConsoleError (u "Mic access error:") err) ;;
       emit (Alert (u "Microphone access is required to use voice features."))).

(** [recorder.stop()] on the recorder named [recorder]. *)
Definition recorder_stop (strict : bool) (recorder : nat) : M World unit :=
  rs <- get recorders ;;
  match nth_error rs recorder with
  | Some rec =>
      if MediaRecorder.stop_throws strict rec
      then throw MediaRecorder.InvalidStateError
      else set_recorders (MediaRecorder.update rs recorder MediaRecorder.stop)
  | None => ret tt
  end.

Definition stopRecording (strict : bool) : M World unit :=
  ref <- get mediaRecorderRef ;;
  match ref with
  | Some recorder =>
      recorder_stop strict recorder ;;
      setRecording false
  | None => ret tt
  end.

(** [handleSubmit]: the typed question alone. *)
Definition handleSubmit (net : FetchOutcome) (play : PlayOutcome)
  : M World unit :=
  q <- get query ;;
  if negb (str_truthy (trim q))
  then emit (Alert (u "Please enter your question or location"))
  else fetchAgent net play [(u "question", Text q)].

Definition voiceControl (w : World) : control :=
  if recording w then StopButton else StartButton (loading w).

(** ** What the browser does to a recorder *)

(** A [dataavailable] event on recorder [r]. *)
Definition deliver_data (r : nat) (data : Blob) : M World unit :=
  rs <- get recorders ;;
  match nth_error rs r with
  | Some rec =>
      if MediaRecorder.is_recording rec || MediaRecorder.stop_task rec
      then ondataavailable data
      else ret tt
  | None => ret tt
  end.

(** The task queued by [stop()]: the last [dataavailable], then [stop]. *)
Definition deliver_stop (r : nat) (last : Blob)
  (net : FetchOutcome) (play : PlayOutcome) : M World unit :=
  rs <- get recorders ;;
  match nth_error rs r with
  | Some rec =>
      if MediaRecorder.stop_task rec
      then
        ondataavailable last ;;
        rs <- get recorders ;;
        set_recorders (MediaRecorder.update rs r MediaRecorder.stopped) ;;
        onstop (MediaRecorder.closure rec) net play
      else ret tt
  | None => ret tt
  end.

Fixpoint deliver_all (r : nat) (chunks : list Blob) : M World unit :=
  match chunks with
  | [] => ret tt
  | c :: chunks' => deliver_data r c ;; deliver_all r chunks'
  end.

(** One recording session from a click on Start to the request: the chunks
    the recorder delivers while recording, a click on Stop, and the queued
    task with the last chunk. *)
Definition session (strict : bool) (chunks : list Blob) (last : Blob)
  (net : FetchOutcome) (play : PlayOutcome) : M World unit :=
  rs <- get recorders ;;
  let r := length rs in
  startRecording Granted Constructed ;;
  deliver_all r chunks ;;
  stopRecording strict ;;
  deliver_stop r last net play.

(** ** The controller's states *)

(** The recorder in [mediaRecorderRef] is recording. *)
Definition active (w : World) : bool :=
  match mediaRecorderRef w with
  | Some r =>
      match nth_error (recorders w) r with
      | Some rec => MediaRecorder.is_recording rec
      | None => false
      end
  | None => false
  end.

(** Idle: the page does not show a recording and no recorder of its own is
    recording. Recording: it shows one and its recorder is recording. *)
Definition idle (w : World) : bool := negb (recording w) && negb (active w).

Definition is_recording (w : World) : bool := recording w && active w.

(** ** Readings used to state what the handlers do *)

(** The form [onstop] posts: the buffered chunks as one blob, and the typed
    question when there is one. *)
Definition voiceForm (q : jsstring) (chunks : list Blob) : FormData :=
  let audioBlob := new_Blob chunks (u "audio/webm") in
  let formData := [(u "audio", File audioBlob (u "voice.webm"))] in
  if negb (str_eqb (trim q) [])
  then formData ++ [(u "question", Text q)]
  else formData.

(** The world in which the request of a session is made. *)
Definition at_submission (w : World) (chunks : list Blob) : World :=
  {| query := query w; agentText := agentText w; loading := loading w;
     recording := false; weather := weather w; soil := soil w;
     mediaRecorderRef := Some (length (recorders w));
     audioChunksRef := filter has_data chunks;
     audioRef := audioRef w;
     recorders :=
       recorders w
       ++ [MediaRecorder.stopped
             (MediaRecorder.stop
                (MediaRecorder.start (MediaRecorder.create (query w))))];
     trace := trace w |}.

(** The events of the audio branch, most recent first. *)
Definition playEvents (data : Raw.AgentResponse) (play : PlayOutcome)
  : list event :=
  match Raw.audio_url data with
  | Some a =>
      if str_truthy a
      then match play with
           | Started => [Play (backend ++ a)]
           | Rejected e =>
               [ConsoleWarn (u "Audio autoplay blocked:") e; Play (backend ++ a)]
           end
      else []
  | None => []
  end.

(** The state every submission starts from: the previous reply is cleared
    and the request is in flight. *)
Definition cleared (w : World) : World :=
  {| query := query w; agentText := []; loading := true;
     recording := recording w; weather := None; soil := None;
     mediaRecorderRef := mediaRecorderRef w;
     audioChunksRef := audioChunksRef w; audioRef := audioRef w;
     recorders := recorders w; trace := trace w |}.

(** The state of a freshly mounted page. *)
Definition initial : World :=
  {| query := []; agentText := []; loading := false; recording := false;
     weather := None; soil := None; mediaRecorderRef := None;
     audioChunksRef := []; audioRef := None; recorders := []; trace := [] |}.

(** A non-empty run of decimal digits. *)
Definition digits (ds : jsstring) : bool :=
  match ds with
  | [] => false
  | _ :: _ => forallb is_digit ds
  end.

(** The paths [fetchAgent] reads in a structured weather object. *)
Definition name_of (o : Raw.Weather) : option jsstring :=
  chain (Raw.location o) Raw.name.

Definition text_of (o : Raw.Weather) : option jsstring :=
  chain (chain (Raw.current o) Raw.condition) Raw.text.

Definition temp_of (o : Raw.Weather) : option number :=
  chain (Raw.current o) Raw.temp_c.

(** The same reply with another [message], and with other redirect keys. *)
Definition with_message (data : Raw.AgentResponse) (msg : option jsstring)
  : Raw.AgentResponse :=
  {| Raw.message := msg; Raw.audio_url := Raw.audio_url data;
     Raw.weather := Raw.weather data; Raw.soil := Raw.soil data;
     Raw.redirect := Raw.redirect data;
     Raw.redirect_url := Raw.redirect_url data |}.

Definition with_redirect (data : Raw.AgentResponse)
  (rd : option bool) (url : option jsstring) : Raw.AgentResponse :=
  {| Raw.message := Raw.message data; Raw.audio_url := Raw.audio_url data;
     Raw.weather := Raw.weather data; Raw.soil := Raw.soil data;
     Raw.redirect := rd; Raw.redirect_url := url |}.

(** ** Replies and states used as examples *)

Definition reply_of_message (msg : jsstring) : Raw.AgentResponse :=
  {| Raw.message := Some msg; Raw.audio_url := None; Raw.weather := None;
     Raw.soil := None; Raw.redirect := None; Raw.redirect_url := None |}.

Definition reply_pune : Raw.AgentResponse :=
  reply_of_message (u "Weather in Pune is Clear with temperature 30.5°C").

Definition reply_field : Raw.AgentResponse :=
  reply_of_message (u "Field has soil moisture 42%").

Definition weather_delhi : Raw.Weather :=
  {| Raw.location := Some {| Raw.name := Some (u "Delhi") |};
     Raw.current :=
       Some {| Raw.condition := Some {| Raw.text := Some (u "Sunny") |};
               Raw.temp_c := Some 31%float |} |}.

Definition soil_wet : Raw.Soil :=
  {| Raw.moisture := Some 55%float; Raw.ph := Some 6.5%float;
     Raw.nitrogen := Some (u "high"); Raw.phosphorus := Some (u "low");
     Raw.potassium := Some (u "medium") |}.

(** Structured weather and soil together with a text both patterns match. *)
Definition reply_both : Raw.AgentResponse :=
  {| Raw.message :=
       Some (u "Weather in Pune is Clear with temperature 30.5°C, soil moisture 42%");
     Raw.audio_url := None; Raw.weather := Some weather_delhi;
     Raw.soil := Some soil_wet; Raw.redirect := None;
     Raw.redirect_url := None |}.

(** A structured weather whose location name is the empty string. *)
Definition weather_unnamed : Raw.Weather :=
  {| Raw.location := Some {| Raw.name := Some [] |};
     Raw.current :=
       Some {| Raw.condition := Some {| Raw.text := Some (u "Sunny") |};
               Raw.temp_c := Some 20%float |} |}.

Definition reply_unnamed : Raw.AgentResponse :=
  {| Raw.message := None; Raw.audio_url := None;
     Raw.weather := Some weather_unnamed; Raw.soil := None;
     Raw.redirect := None; Raw.redirect_url := None |}.

(** A page that displays an earlier reply. *)
Definition showing_old : World :=
  {| query := []; agentText := u "Irrigate tomorrow morning.";
     loading := false; recording := false;
     weather := Some {| location := u "Delhi"; condition := u "Sunny";
                        temp_c := OfNumber 31%float |};
     soil := Some {| moisture := 55%float; ph := Some 6.5%float;
                     nitrogen := Some (u "high"); phosphorus := Some (u "low");
                     potassium := Some (u "medium") |};
     mediaRecorderRef := None; audioChunksRef := []; audioRef := None;
     recorders := []; trace := [] |}.

(** A page in the middle of a recording that has buffered one chunk, and a
    page after a whole session. *)
Definition chunk_a : Blob := {| bytes := [26; 69; 223; 163]%N; type_ := u "audio/webm" |}.

Definition chunk_empty : Blob := {| bytes := []; type_ := u "audio/webm" |}.

Definition mid_recording : World :=
  run (startRecording Granted Constructed ;; deliver_data 0 chunk_a) initial.

Definition after_session : World :=
  run (session true [chunk_a] chunk_empty (Response 200 (Json reply_field))
         Started)
    initial.

(** A structured soil with a ph of zero and an empty potassium level, and a
    reply that holds it, the weather without a name, and a text both patterns
    match. *)
Definition soil_sour : Raw.Soil :=
  {| Raw.moisture := Some 55%float; Raw.ph := Some 0%float;
     Raw.nitrogen := Some (u "high"); Raw.phosphorus := Some (u "low");
     Raw.potassium := Some [] |}.

Definition reply_both_falsy : Raw.AgentResponse :=
  {| Raw.message :=
       Some (u "Weather in Pune is Clear with temperature 30.5°C, soil moisture 42%");
     Raw.audio_url := None; Raw.weather := Some weather_unnamed;
     Raw.soil := Some soil_sour; Raw.redirect := None;
     Raw.redirect_url := None |}.

(** ** The question box *)

(** [onChange] of the text input: [setQuery(e.target.value)]. *)
Definition setQuery (v : jsstring) : M World unit :=
  modify (fun w =>
    {| query := v; agentText := agentText w; loading := loading w;
       recording := recording w; weather := weather w; soil := soil w;
       mediaRecorderRef := mediaRecorderRef w;
       audioChunksRef := audioChunksRef w; audioRef := audioRef w;
       recorders := recorders w; trace := trace w |}).

(** A recording session during which the question box is edited: chunks, a
    new text in the box, more chunks, then Stop and the queued task. *)
Definition typed_session (strict : bool) (chunks1 : list Blob) (q' : jsstring)
  (chunks2 : list Blob) (last : Blob)
  (net : FetchOutcome) (play : PlayOutcome) : M World unit :=
  rs <- get recorders ;;
  let r := length rs in
  startRecording Granted Constructed ;;
  deliver_all r chunks1 ;;
  setQuery q' ;;
  deliver_all r chunks2 ;;
  stopRecording strict ;;
  deliver_stop r last net play.

End Irrigation.

(* ===================================================================== *)
(** * The landing page *)
(* ===================================================================== *)

Module Home.

(** React state ([agentText], [recording], [loading]), refs, the recorders
    created so far, the [onended] handlers set on Audio elements (each with
    the reply its closure captured) and the trace of effects, most recent
    first. *)
Record World := {
  agentText : jsstring;
  recording : bool;
  loading : bool;
  mediaRecorderRef : option nat;
  audioChunksRef : list Blob;
  recorders : list (MediaRecorder.t unit);
  onended : list Raw.AgentResponse;
  trace : list event }.

Definition setAgentText (v : jsstring) : M World unit :=
  modify (fun w =>
    {| agentText := v; recording := recording w; loading := loading w;
       mediaRecorderRef := mediaRecorderRef w;
       audioChunksRef := audioChunksRef w; recorders := recorders w;
       onended := onended w; trace := trace w |}).

Definition setRecording (v : bool) : M World unit :=
  modify (fun w =>
    {| agentText := agentText w; recording := v; loading := loading w;
       mediaRecorderRef := mediaRecorderRef w;
       audioChunksRef := audioChunksRef w; recorders := recorders w;
       onended := onended w; trace := trace w |}).

Definition setLoading (v : bool) : M World unit :=
  modify (fun w =>
    {| agentText := agentText w; recording := recording w; loading := v;
       mediaRecorderRef := mediaRecorderRef w;
       audioChunksRef := audioChunksRef w; recorders := recorders w;
       onended := onended w; trace := trace w |}).

Definition set_mediaRecorderRef (v : option nat) : M World unit :=
  modify (fun w =>
    {| agentText := agentText w; recording := recording w; loading := loading w;
       mediaRecorderRef := v;
       audioChunksRef := audioChunksRef w; recorders := recorders w;
       onended := onended w; trace := trace w |}).

Definition set_audioChunksRef (v : list Blob) : M World unit :=
  modify (fun w =>
    {| agentText := agentText w; recording := recording w; loading := loading w;
       mediaRecorderRef := mediaRecorderRef w;
       audioChunksRef := v; recorders := recorders w;
       onended := onended w; trace := trace w |}).

Definition set_recorders (v : list (MediaRecorder.t unit)) : M World unit :=
  modify (fun w =>
    {| agentText := agentText w; recording := recording w; loading := loading w;
       mediaRecorderRef := mediaRecorderRef w;
       audioChunksRef := audioChunksRef w; recorders := v;
       onended := onended w; trace := trace w |}).

(** [audio.onended = handler], the handler closing over [data]. *)
Definition set_onended (data : Raw.AgentResponse) : M World unit :=
  modify (fun w =>
    {| agentText := agentText w; recording := recording w; loading := loading w;
       mediaRecorderRef := mediaRecorderRef w;
       audioChunksRef := audioChunksRef w; recorders := recorders w;
       onended := onended w ++ [data]; trace := trace w |}).

Definition emit (e : event) : M World unit :=
  modify (fun w =>
    {| agentText := agentText w; recording := recording w; loading := loading w;
       mediaRecorderRef := mediaRecorderRef w;
       audioChunksRef := audioChunksRef w; recorders := recorders w;
       onended := onended w; trace := e :: trace w |}).

Definition fetch (url : jsstring) (body : FormData) (net : FetchOutcome)
  : M World (N * Body) :=
  emit (Fetch url body) ;;
  match net with
  | NetworkFailure e => throw e
  | Response status b => ret (status, b)
  end.

Definition json (b : Body) : M World Raw.AgentResponse :=
  match b with
  | NotJson e => throw e
  | Json data => ret data
  end.

Definition audio_play (src : jsstring) (play : PlayOutcome) : M World unit :=
  emit (Play src) ;;
  match play with
  | Started => ret tt
  | Rejected e => throw e
  end.

(** [if (data.redirect && data.redirect_url) router.push(data.redirect_url)]. *)
Definition redirectIfAsked (data : Raw.AgentResponse) : M World unit :=
  match Raw.redirect data, Raw.redirect_url data with
  | Some true, Some url => when (str_truthy url) (emit (Navigate url))
  | _, _ => ret tt
  end.

(** The audio branch of [sendToBackend]: play the reply and navigate when it
    ends, or navigate at once when playback is refused or there is no audio. *)
Definition playReply (data : Raw.AgentResponse) (play : PlayOutcome)
  : M World unit :=
  match Raw.audio_url data with
  | Some a =>
      if str_truthy a
      then
        let src := backend ++ a in
        try_catch
          ( audio_play src play ;;
            set_onended data )
          (fun err =>
             emit (ConsoleWarn (u "⚠️ Audio play blocked:") err) ;;
             redirectIfAsked data)
      else redirectIfAsked data
  | None => redirectIfAsked data
  end.

Definition sendToBackend (net : FetchOutcome) (play : PlayOutcome)
  : M World unit :=
  setLoading true ;;
  try_catch_finally
    ( chunks <- get audioChunksRef ;;
      let audioBlob := new_Blob chunks (u "audio/webm") in
      let formData := [(u "audio", File audioBlob (u "customer_audio.webm"))] in
      res <- fetch (backend ++ u "/agent") formData net ;;
      when (negb (ok (fst res)))
        (throw (new_Error (u "Server error: " ++ decimal (fst res)))) ;;
      data <- json (snd res) ;;
      emit (ConsoleLog (u "Backend response:") data) ;;
      setAgentText (or_else str_truthy (Raw.message data) []) ;;
      playReply data play )
    (fun err =>
       emit (ConsoleError (u "❌ Error sending audio:") err) ;;
       emit (Alert (u "Failed to process audio. Please try again.")))
    (setLoading false).

(** The [ended] event of the [i]-th Audio element that has a handler. *)
Definition audio_ended (i : nat) : M World unit :=
  hs <- get onended ;;
  match nth_error hs i with
  | Some data => redirectIfAsked data
  | None => ret tt
  end.

Definition ondataavailable (data : Blob) : M World unit :=
  if (0 <? size data)%nat
  then chunks <- get audioChunksRef ;; set_audioChunksRef (chunks ++ [data])
  else ret tt.

Definition startRecording (mic : MicOutcome) (ctor : RecorderOutcome)
  : M World unit :=
  try_catch
    ( match mic with Granted => ret tt | Refused e => throw e end ;;
      match ctor with Constructed => ret tt | Unsupported e => throw e end ;;
      rs <- get recorders ;;
      let recorder := length rs in
      set_recorders (rs ++ [MediaRecorder.create tt]) ;;
      set_audioChunksRef [] ;;
      set_mediaRecorderRef (Some recorder) ;;
      rs <- get recorders ;;
      set_recorders (MediaRecorder.update rs recorder MediaRecorder.start) ;;
      setRecording true )
    (fun err =>
       emit (ConsoleError (u "❌ Mic access error:") err) ;;
       emit (Alert (u "Microphone access is required to use voice features."))).

(** [recorder.stop()] on the recorder named [recorder]. *)
Definition recorder_stop (strict : bool) (recorder : nat) : M World unit :=
  rs <- get recorders ;;
  match nth_error rs recorder with
  | Some rec =>
      if MediaRecorder.stop_throws strict rec
      then throw MediaRecorder.InvalidStateError
      else set_recorders (MediaRecorder.update rs recorder MediaRecorder.stop)
  | None => ret tt
  end.

Definition stopRecording (strict : bool) : M World unit :=
  ref <- get mediaRecorderRef ;;
  match ref with
  | Some recorder =>
      recorder_stop strict recorder ;;
      setRecording false
  | None => ret tt
  end.

Definition voiceControl (w : World) : control :=
  if recording w then StopButton else StartButton (loading w).

Definition deliver_data (r : nat) (data : Blob) : M World unit :=
  rs <- get recorders ;;
  match nth_error rs r with
  | Some rec =>
      if MediaRecorder.is_recording rec || MediaRecorder.stop_task rec
      then ondataavailable data
      else ret tt
  | None => ret tt
  end.

Definition deliver_stop (r : nat) (last : Blob)
  (net : FetchOutcome) (play : PlayOutcome) : M World unit :=
  rs <- get recorders ;;
  match nth_error rs r with
  | Some rec =>
      if MediaRecorder.stop_task rec
      then
        ondataavailable last ;;
        rs <- get recorders ;;
        set_recorders (MediaRecorder.update rs r MediaRecorder.stopped) ;;
        sendToBackend net play
      else ret tt
  | None => ret tt
  end.

Fixpoint deliver_all (r : nat) (chunks : list Blob) : M World unit :=
  match chunks with
  | [] => ret tt
  | c :: chunks' => deliver_data r c ;; deliver_all r chunks'
  end.

Definition session (strict : bool) (chunks : list Blob) (last : Blob)
  (net : FetchOutcome) (play : PlayOutcome) : M World unit :=
  rs <- get recorders ;;
  let r := length rs in
  startRecording Granted Constructed ;;
  deliver_all r chunks ;;
  stopRecording strict ;;
  deliver_stop r last net play.

(** ** The controller's states *)

Definition active (w : World) : bool :=
  match mediaRecorderRef w with
  | Some r =>
      match nth_error (recorders w) r with
      | Some rec => MediaRecorder.is_recording rec
      | None => false
      end
  | None => false
  end.

Definition idle (w : World) : bool := negb (recording w) && negb (active w).

Definition is_recording (w : World) : bool := recording w && active w.

(** ** Readings used to state what the handlers do *)

(** The navigation of [redirectIfAsked], if any. *)
Definition redirectEvents (data : Raw.AgentResponse) : list event :=
  match Raw.redirect data, Raw.redirect_url data with
  | Some true, Some url => if str_truthy url then [Navigate url] else []
  | _, _ => []
  end.

(** The events of the audio branch, most recent first. *)
Definition playEvents (data : Raw.AgentResponse) (play : PlayOutcome)
  : list event :=
  match Raw.audio_url data with
  | Some a =>
      if str_truthy a
      then match play with
           | Started => [Play (backend ++ a)]
           | Rejected e =>
               redirectEvents data
               ++ [ConsoleWarn (u "⚠️ Audio play blocked:") e; Play (backend ++ a)]
           end
      else redirectEvents data
  | None => redirectEvents data
  end.

(** The [onended] handlers after the audio branch. *)
Definition playHandlers (data : Raw.AgentResponse) (play : PlayOutcome)
  (hs : list Raw.AgentResponse) : list Raw.AgentResponse :=
  match Raw.audio_url data, play with
  | Some a, Started => if str_truthy a then hs ++ [data] else hs
  | _, _ => hs
  end.

(** A reply that asks for a redirect after its audio. *)
Definition reply_redirect : Raw.AgentResponse :=
  {| Raw.message := Some (u "Opening the advice page.");
     Raw.audio_url := Some (u "/audio/reply.mp3");
     Raw.weather := None; Raw.soil := None;
     Raw.redirect := Some true; Raw.redirect_url := Some (u "/irrigation") |}.

Definition NotAllowedError : Error :=
  mkError (u "NotAllowedError") (u "play() failed because the user didn't interact with the document first.").

(** The request [sendToBackend] posts: the buffered chunks as one blob. *)
Definition request (w : World) : event :=
  Fetch (backend ++ u "/agent")
    [(u "audio",
      File (new_Blob (audioChunksRef w) (u "audio/webm"))
        (u "customer_audio.webm"))].

(** The state of a freshly mounted page. *)
Definition initial : World :=
  {| agentText := []; recording := false; loading := false;
     mediaRecorderRef := None; audioChunksRef := []; recorders := [];
     onended := []; trace := [] |}.

(** The world in which the request of a session is made. *)
Definition at_submission (w : World) (chunks : list Blob) : World :=
  {| agentText := agentText w; recording := false; loading := loading w;
     mediaRecorderRef := Some (length (recorders w));
     audioChunksRef := filter has_data chunks;
     recorders :=
       recorders w
       ++ [MediaRecorder.stopped
             (MediaRecorder.stop
                (MediaRecorder.start (MediaRecorder.create tt)))];
     onended := onended w; trace := trace w |}.

(** A page in the middle of a recording that has buffered one chunk. *)
Definition chunk_a : Blob := {| bytes := [26; 69; 223; 163]%N; type_ := u "audio/webm" |}.

Definition chunk_empty : Blob := {| bytes := []; type_ := u "audio/webm" |}.

Definition mid_recording : World :=
  run (startRecording Granted Constructed ;; deliver_data 0 chunk_a) initial.

Definition after_session : World :=
  run (session true [chunk_a] chunk_empty (Response 200 (Json reply_redirect))
         Started)
    initial.

End Home.

(** ** Reading a trace *)

Definition navigations (t : list event) : list jsstring :=
  flat_map (fun e => match e with Navigate url => [url] | _ => [] end) t.

Definition alerts (t : list event) : list jsstring :=
  flat_map (fun e => match e with Alert msg => [msg] | _ => [] end) t.

Definition requests (t : list event) : list FormData :=
  flat_map (fun e => match e with Fetch _ body => [body] | _ => [] end) t.

Definition audio_parts (body : FormData) : list Blob :=
  flat_map (fun p => match snd p with File b _ => [b] | Text _ => [] end) body.

Definition posts (t : list event) : list (jsstring * FormData) :=
  flat_map (fun e => match e with Fetch url body => [(url, body)] | _ => [] end) t.

Definition plays (t : list event) : list jsstring :=
  flat_map (fun e => match e with Play src => [src] | _ => [] end) t.

(** ** Reading an outcome and a reply *)

(** The request got a reply with a status in 200-299 and a JSON body. *)
Definition succeeded (net : FetchOutcome) : bool :=
  match net with
  | Response status (Json _) => ok status
  | _ => false
  end.

(** The error a failed request ends with: the network's, the one thrown for
    the status, or the parser's; none after a success. *)
Definition failure_error (net : FetchOutcome) : option Error :=
  match net with
  | NetworkFailure e => Some e
  | Response status body =>
      if ok status
      then match body with NotJson e => Some e | Json _ => None end
      else Some (new_Error (u "Server error: " ++ decimal status))
  end.

(** Only white space (or nothing) in the question box. *)
Definition blank (q : jsstring) : bool := forallb is_space q.

(** Where the reply asks to go: [redirect] is true and [redirect_url] is a
    non-empty string. *)
Definition asked (data : Raw.AgentResponse) : option jsstring :=
  match Raw.redirect data, Raw.redirect_url data with
  | Some true, Some url => if str_truthy url then Some url else None
  | _, _ => None
  end.

(** The reply has an [audio_url] that is a non-empty string. *)
Definition has_audio (data : Raw.AgentResponse) : bool :=
  match Raw.audio_url data with
  | Some a => str_truthy a
  | None => false
  end.

(* ===================================================================== *)
(** * The model on small inputs *)
(* ===================================================================== *)

Example utf16_degree : u "°C" = [176; 67]%N.
Proof. reflexivity. Qed.

Example Number_of_42 : Number (u "42") = 42%float.
Proof. reflexivity. Qed.

Example Number_of_007 : Number (u "007") = 7%float.
Proof. reflexivity. Qed.

Example decimal_of_500 : decimal 500 = u "500".
Proof. reflexivity. Qed.

Example trim_blanks : trim (u "  Pune rain ") = u "Pune rain".
Proof. reflexivity. Qed.

(** The lazy group stops at the first [" is "], the greedy one at the last
    [" with temperature "] that still lets the rest match. *)
Example weatherRe_backtracks :
  RegExp.exec Irrigation.weatherRe
    (u "Weather in A is B is C with temperature 1 with temperature 2.5°C")
  = Some [ u "Weather in A is B is C with temperature 1 with temperature 2.5°C";
           u "A"; u "B is C with temperature 1"; u "2.5" ].
Proof. vm_compute. reflexivity. Qed.

Example soilRe_needs_a_digit :
  RegExp.exec Irrigation.soilRe (u "soil moisture %, soil moisture 7%")
  = Some [u "soil moisture 7%"; u "7"].
Proof. vm_compute. reflexivity. Qed.

Example soilRe_no_match :
  RegExp.exec Irrigation.soilRe (u "Soil moisture 42 %") = None.
Proof. vm_compute. reflexivity. Qed.

(* ===================================================================== *)
(** * Facts about the matcher *)
(* ===================================================================== *)

Module RegExpFacts.
Import RegExp.

Lemma strip_prefix_app (l s : jsstring) : strip_prefix l (l ++ s) = Some s.
Proof.
  induction l as [|x l IH]; cbn; [reflexivity|].
  unfold code_eqb. now rewrite N.eqb_refl.
Qed.

Lemma strip_prefix_inv (l s s' : jsstring) :
  strip_prefix l s = Some s' -> s = l ++ s'.
Proof.
  revert s. induction l as [|x l IH]; intros s H; cbn in H.
  - now inversion H.
  - destruct s as [|y s]; [discriminate|].
    unfold code_eqb in H. destruct (N.eqb_spec x y) as [->|]; [|discriminate].
    cbn. f_equal. now apply IH.
Qed.

Section Repeat.
Variable c : cclass.
Variable least : nat.
Variable k : jsstring -> option (list jsstring * jsstring).

(** Whatever a greedy group returns, it took a run of the class and the rest
    of the pattern accepted what followed. *)
Lemma greedy_inv (s taken : jsstring) caps rest :
  greedy c least k taken s = Some (caps, rest) ->
  exists run s' caps',
    s = run ++ s' /\ Forall (fun x => in_class c x = true) run /\
    (least <= length (taken ++ run))%nat /\
    k s' = Some (caps', rest) /\ caps = (taken ++ run) :: caps'.
Proof.
  assert (Hclose : forall taken s,
             close least k taken s = Some (caps, rest) ->
             exists run s' caps',
               s = run ++ s' /\ Forall (fun x => in_class c x = true) run /\
               (least <= length (taken ++ run))%nat /\
               k s' = Some (caps', rest) /\ caps = (taken ++ run) :: caps').
  { intros t s0 H. unfold close in H.
    destruct (Nat.leb_spec least (length t)) as [Hl|]; [|discriminate].
    destruct (k s0) as [[caps' rest']|] eqn:Hk; [|discriminate].
    inversion H; subst. exists [], s0, caps'.
    rewrite app_nil_r. repeat split; auto. }
  revert taken. induction s as [|x s IH]; intros taken H; cbn in H.
  - now apply Hclose.
  - destruct (in_class c x) eqn:Hx; [|now apply Hclose].
    destruct (greedy c least k (taken ++ [x]) s) as [r|] eqn:Hg;
      [|now apply Hclose].
    inversion H; subst r.
    destruct (IH _ Hg) as (run & s' & caps' & -> & Hrun & Hlen & Hk & ->).
    exists (x :: run), s', caps'.
    rewrite <- app_assoc in *. cbn in *. repeat split; auto.
Qed.

(** A greedy group takes the whole run when the rest of the pattern accepts
    what follows it. *)
Lemma greedy_whole_run (run s' taken : jsstring) caps rest :
  Forall (fun x => in_class c x = true) run ->
  match s' with [] => True | x :: _ => in_class c x = false end ->
  (least <= length (taken ++ run))%nat ->
  k s' = Some (caps, rest) ->
  greedy c least k taken (run ++ s') = Some ((taken ++ run) :: caps, rest).
Proof.
  intros Hrun Hend. revert taken.
  induction Hrun as [|x run Hx Hrun IH]; intros taken Hlen Hk.
  - rewrite app_nil_r in *. cbn [app].
    assert (Hc : close least k taken s' = Some (taken :: caps, rest)).
    { unfold close. destruct (Nat.leb_spec least (length taken)); [|lia].
      now rewrite Hk. }
    destruct s' as [|y s']; cbn; [exact Hc|]. now rewrite Hend.
  - cbn. rewrite Hx.
    rewrite (IH (taken ++ [x])).
    + now rewrite <- app_assoc.
    + now rewrite <- app_assoc.
    + exact Hk.
Qed.
End Repeat.

(** [exec] returns the match at the first position where the pattern
    matches. *)
Lemma exec_first (re : regexp) (p s : jsstring) caps rest :
  match_here re s = Some (caps, rest) ->
  (forall p1 s1, p ++ s = p1 ++ s1 -> (length p1 < length p)%nat ->
                 match_here re s1 = None) ->
  exec re (p ++ s) = Some (firstn (length s - length rest) s :: caps).
Proof.
  intros Hm. induction p as [|x p IH]; intros Hfirst.
  - cbn [app]. destruct s; cbn [exec]; now rewrite Hm.
  - cbn [app exec].
    rewrite (Hfirst [] (x :: p ++ s)); [|reflexivity|cbn; lia].
    apply IH. intros p1 s1 Heq Hlt.
    apply (Hfirst (x :: p1) s1); [cbn; now rewrite Heq|cbn; lia].
Qed.

End RegExpFacts.

(* ===================================================================== *)
(** * Facts about the recorder store and about blobs *)
(* ===================================================================== *)

Module MediaRecorderFacts.
Import MediaRecorder.

Lemma update_same {E} (rs : list (t E)) (i : nat) (f : t E -> t E) :
  (forall r, nth_error rs i = Some r -> f r = r) -> update rs i f = rs.
Proof.
  revert i. induction rs as [|r rs IH]; intros i H; [reflexivity|].
  destruct i as [|i]; cbn.
  - now rewrite (H r eq_refl).
  - f_equal. apply IH. intros r' Hr'. now apply H.
Qed.

Lemma update_last {E} (rs : list (t E)) (r : t E) (f : t E -> t E) :
  update (rs ++ [r]) (length rs) f = rs ++ [f r].
Proof.
  induction rs as [|r0 rs IH]; cbn; [reflexivity|]. now rewrite IH.
Qed.

Lemma nth_error_last {E} (rs : list (t E)) (r : t E) :
  nth_error (rs ++ [r]) (length rs) = Some r.
Proof.
  induction rs as [|r0 rs IH]; cbn; [reflexivity|]. exact IH.
Qed.

(** [stop()] on a recorder that is not recording changes nothing. *)
Lemma stop_inactive {E} (r : t E) : is_recording r = false -> stop r = r.
Proof.
  unfold is_recording, stop. destruct (state r); [reflexivity|discriminate].
Qed.

End MediaRecorderFacts.

(** Chunks without data add nothing to a blob. *)
Lemma bytes_has_data (chunks : list Blob) :
  concat (map bytes (filter has_data chunks)) = concat (map bytes chunks).
Proof.
  induction chunks as [|c chunks IH]; [reflexivity|].
  cbn [filter]. unfold has_data at 1, size.
  destruct (bytes c) as [|b bs] eqn:Hc; cbn [length Nat.ltb Nat.leb].
  - cbn. now rewrite Hc, IH.
  - cbn. now rewrite Hc, IH.
Qed.

Lemma filter_has_data_app (a b : list Blob) :
  filter has_data (a ++ b) = filter has_data a ++ filter has_data b.
Proof. apply filter_app. Qed.

(* ===================================================================== *)
(** * Facts about the handlers of the irrigation page *)
(* ===================================================================== *)

Module IrrigationFacts.
Import Irrigation.

(** Run the state updates of a handler up to its next decision. *)
Ltac handler_cbn :=
  cbn [ret throw modify get negb fst snd
       setLoading setAgentText setWeather setSoil setRecording
       set_mediaRecorderRef set_audioChunksRef set_audioRef set_recorders emit
       query agentText loading recording weather soil mediaRecorderRef
       audioChunksRef audioRef recorders trace].

(** What [showWeather] and [showSoil] decide to display, if anything. *)
Lemma showWeather_eq (data : Raw.AgentResponse) (w : World) :
  showWeather data w =
  (Normal tt,
   match Raw.weather data with
   | Some o => run (setWeather (Some (weatherOfObject o))) w
   | None =>
       match Raw.message data with
       | Some msg =>
           match RegExp.exec weatherRe msg with
           | Some m =>
               if str_truthy msg
               then run (setWeather (Some (weatherOfMatch m))) w
               else w
           | None => w
           end
       | None => w
       end
   end).
Proof.
  unfold showWeather.
  destruct (Raw.weather data); [reflexivity|].
  destruct (Raw.message data) as [msg|]; [|reflexivity].
  destruct (str_truthy msg), (RegExp.exec weatherRe msg); reflexivity.
Qed.

Lemma showSoil_eq (data : Raw.AgentResponse) (w : World) :
  showSoil data w =
  (Normal tt,
   match Raw.soil data with
   | Some o => run (setSoil (Some (soilOfObject o))) w
   | None =>
       match Raw.message data with
       | Some msg =>
           match RegExp.exec soilRe msg with
           | Some m =>
               if str_truthy msg
               then run (setSoil (Some (soilOfMatch m))) w
               else w
           | None => w
           end
       | None => w
       end
   end).
Proof.
  unfold showSoil.
  destruct (Raw.soil data); [reflexivity|].
  destruct (Raw.message data) as [msg|]; [|reflexivity].
  destruct (str_truthy msg), (RegExp.exec soilRe msg); reflexivity.
Qed.

(** [playReply] never throws; it touches [audioRef] and the trace only. *)
Lemma playReply_eq (data : Raw.AgentResponse) (play : PlayOutcome) (w : World) :
  playReply data play w =
  (Normal tt,
   {| query := query w; agentText := agentText w; loading := loading w;
      recording := recording w; weather := weather w; soil := soil w;
      mediaRecorderRef := mediaRecorderRef w;
      audioChunksRef := audioChunksRef w;
      audioRef := match Raw.audio_url data with
                  | Some a => if str_truthy a then Some (backend ++ a)
                              else audioRef w
                  | None => audioRef w
                  end;
      recorders := recorders w;
      trace := playEvents data play ++ trace w |}).
Proof.
  unfold playReply, playEvents.
  destruct w, (Raw.audio_url data) as [a|]; [|reflexivity].
  destruct (str_truthy a); [|reflexivity].
  destruct play; reflexivity.
Qed.

(** A reply with a success status and a JSON body runs the whole body of
    [fetchAgent] without a throw. *)
Lemma fetchAgent_success (w : World) (fd : FormData) (play : PlayOutcome)
  (status : N) (data : Raw.AgentResponse) :
  ok status = true ->
  fetchAgent (Response status (Json data)) play fd w =
  (Normal tt,
   run (setLoading false)
     (run (playReply data play)
        (run (showSoil data)
           (run (showWeather data)
              (run (setAgentText (or_else str_truthy (Raw.message data) []))
                 (run (emit (Fetch (backend ++ u "/agent") fd)) (cleared w))))))).
Proof.
  intros Hok.
  unfold fetchAgent, try_catch_finally, try_catch, fetch, json, when, run, bind.
  handler_cbn. rewrite Hok. handler_cbn.
  rewrite !showWeather_eq. handler_cbn.
  rewrite !showSoil_eq. handler_cbn.
  rewrite !playReply_eq. reflexivity.
Qed.

(** A reply with any other status stops at the throw: nothing of the body is
    looked at. *)
Lemma fetchAgent_refused (w : World) (fd : FormData) (play : PlayOutcome)
  (status : N) (body : Body) :
  ok status = false ->
  fetchAgent (Response status body) play fd w =
  (Normal tt,
   {| query := query w; agentText := []; loading := false;
      recording := recording w; weather := None; soil := None;
      mediaRecorderRef := mediaRecorderRef w;
      audioChunksRef := audioChunksRef w; audioRef := audioRef w;
      recorders := recorders w;
      trace :=
        Alert (u "Failed to fetch advice. Try again.")
        :: ConsoleError (u "Error:")
             (new_Error (u "Server error: " ++ decimal status))
        :: Fetch (backend ++ u "/agent") fd
        :: trace w |}).
Proof.
  intros Hok.
  unfold fetchAgent, try_catch_finally, try_catch, fetch, json, when, bind.
  handler_cbn. rewrite Hok. reflexivity.
Qed.

(** What a successful reply leaves on display. *)
Lemma shown_weather (w : World) (fd : FormData) (play : PlayOutcome)
  (status : N) (data : Raw.AgentResponse) :
  ok status = true ->
  weather (run (fetchAgent (Response status (Json data)) play fd) w) =
  match Raw.weather data with
  | Some o => Some (weatherOfObject o)
  | None =>
      match Raw.message data with
      | Some msg =>
          match RegExp.exec weatherRe msg with
          | Some m => if str_truthy msg then Some (weatherOfMatch m) else None
          | None => None
          end
      | None => None
      end
  end.
Proof.
  intros Hok. unfold run at 1. rewrite fetchAgent_success by exact Hok.
  unfold run. rewrite playReply_eq, showSoil_eq, showWeather_eq.
  handler_cbn. unfold run.
  destruct (Raw.soil data), (Raw.weather data), (Raw.message data) as [msg|];
    try reflexivity;
    destruct (RegExp.exec soilRe msg), (RegExp.exec weatherRe msg),
      (str_truthy msg); reflexivity.
Qed.

Lemma shown_soil (w : World) (fd : FormData) (play : PlayOutcome)
  (status : N) (data : Raw.AgentResponse) :
  ok status = true ->
  soil (run (fetchAgent (Response status (Json data)) play fd) w) =
  match Raw.soil data with
  | Some o => Some (soilOfObject o)
  | None =>
      match Raw.message data with
      | Some msg =>
          match RegExp.exec soilRe msg with
          | Some m => if str_truthy msg then Some (soilOfMatch m) else None
          | None => None
          end
      | None => None
      end
  end.
Proof.
  intros Hok. unfold run at 1. rewrite fetchAgent_success by exact Hok.
  unfold run. rewrite playReply_eq, showSoil_eq, showWeather_eq.
  handler_cbn. unfold run.
  destruct (Raw.soil data), (Raw.weather data), (Raw.message data) as [msg|];
    try reflexivity;
    destruct (RegExp.exec soilRe msg), (RegExp.exec weatherRe msg),
      (str_truthy msg); reflexivity.
Qed.

(** ** The soil pattern *)

Lemma digits_Forall (ds : jsstring) :
  digits ds = true ->
  ds <> [] /\ Forall (fun x => RegExp.in_class RegExp.Digit x = true) ds.
Proof.
  destruct ds as [|d ds]; [discriminate|]. intros H. split; [discriminate|].
  apply Forall_forall. exact (proj1 (forallb_forall _ _) H).
Qed.

Lemma Forall_digits (ds : jsstring) :
  ds <> [] -> Forall (fun x => RegExp.in_class RegExp.Digit x = true) ds ->
  digits ds = true.
Proof.
  destruct ds as [|d ds]; [congruence|]. intros _ H.
  apply forallb_forall. exact (proj1 (Forall_forall _ _) H).
Qed.

(** Where the text reads [soil moisture <digits>%], the pattern matches and
    captures the digits. *)
Lemma soilRe_here (ds r : jsstring) :
  digits ds = true ->
  RegExp.match_here soilRe (u "soil moisture " ++ ds ++ u "%" ++ r)
  = Some ([ds], r).
Proof.
  intros Hd. destruct (digits_Forall _ Hd) as [Hne Hall].
  unfold soilRe. cbn [RegExp.match_here].
  rewrite RegExpFacts.strip_prefix_app.
  apply (@RegExpFacts.greedy_whole_run RegExp.Digit 1
           (RegExp.match_here [RegExp.Lit (u "%")]) ds (u "%" ++ r) [] [] r).
  - exact Hall.
  - reflexivity.
  - destruct ds; [congruence|cbn; lia].
  - cbn [RegExp.match_here]. now rewrite RegExpFacts.strip_prefix_app.
Qed.

(** Where the pattern matches, the text reads [soil moisture <digits>%]. *)
Lemma soilRe_here_inv (s : jsstring) caps rest :
  RegExp.match_here soilRe s = Some (caps, rest) ->
  exists ds, s = u "soil moisture " ++ ds ++ u "%" ++ rest /\
             caps = [ds] /\ digits ds = true.
Proof.
  unfold soilRe. cbn [RegExp.match_here]. intros H.
  destruct (RegExp.strip_prefix (u "soil moisture ") s) as [s1|] eqn:H1;
    [|discriminate].
  apply RegExpFacts.strip_prefix_inv in H1. subst s.
  apply RegExpFacts.greedy_inv in H.
  destruct H as (ds & s2 & caps' & -> & Hall & Hlen & Hk & ->).
  cbn [RegExp.match_here] in Hk.
  destruct (RegExp.strip_prefix (u "%") s2) as [s3|] eqn:H3; [|discriminate].
  apply RegExpFacts.strip_prefix_inv in H3. subst s2.
  inversion Hk; subst. exists ds. cbn [app] in *.
  split; [reflexivity|split; [reflexivity|]].
  apply Forall_digits; [|exact Hall]. destruct ds; [cbn in Hlen; lia|discriminate].
Qed.

(** The first place where the text reads [soil moisture <digits>%] is the
    match, and its digits are the capture. *)
Lemma soilRe_exec (p ds r : jsstring) :
  digits ds = true ->
  (forall p' ds' r',
      p ++ u "soil moisture " ++ ds ++ u "%" ++ r
      = p' ++ u "soil moisture " ++ ds' ++ u "%" ++ r' ->
      digits ds' = true -> (length p <= length p')%nat) ->
  exists full,
    RegExp.exec soilRe (p ++ u "soil moisture " ++ ds ++ u "%" ++ r)
    = Some [full; ds].
Proof.
  intros Hd Hfirst. eexists.
  apply RegExpFacts.exec_first.
  - now apply soilRe_here.
  - intros p1 s1 Heq Hlt.
    destruct (RegExp.match_here soilRe s1) as [[caps rest]|] eqn:Hm;
      [|reflexivity].
    apply soilRe_here_inv in Hm. destruct Hm as (ds' & -> & _ & Hd').
    specialize (Hfirst p1 ds' rest Heq Hd'). lia.
Qed.

Lemma trace_success (w : World) (fd : FormData) (play : PlayOutcome)
  (status : N) (data : Raw.AgentResponse) :
  ok status = true ->
  trace (run (fetchAgent (Response status (Json data)) play fd) w) =
  playEvents data play ++ Fetch (backend ++ u "/agent") fd :: trace w.
Proof.
  intros Hok. unfold run at 1. rewrite fetchAgent_success by exact Hok.
  unfold run. rewrite playReply_eq, showSoil_eq, showWeather_eq.
  handler_cbn. unfold run.
  destruct (Raw.soil data), (Raw.weather data), (Raw.message data) as [msg|];
    try reflexivity;
    destruct (RegExp.exec soilRe msg), (RegExp.exec weatherRe msg),
      (str_truthy msg); reflexivity.
Qed.

(** A body that is not JSON stops at the throw of [res.json()]. *)
Lemma trace_not_json (w : World) (fd : FormData) (play : PlayOutcome)
  (status : N) (e : Error) :
  ok status = true ->
  trace (run (fetchAgent (Response status (NotJson e)) play fd) w) =
  Alert (u "Failed to fetch advice. Try again.")
  :: ConsoleError (u "Error:") e
  :: Fetch (backend ++ u "/agent") fd :: trace w.
Proof.
  intros Hok.
  unfold run, fetchAgent, try_catch_finally, try_catch, fetch, json, when, bind.
  handler_cbn. rewrite Hok. reflexivity.
Qed.

(** The audio branch never navigates. *)
Lemma navigations_playEvents (data : Raw.AgentResponse) (play : PlayOutcome) :
  navigations (playEvents data play) = [].
Proof.
  unfold playEvents. destruct (Raw.audio_url data) as [a|]; [|reflexivity].
  destruct (str_truthy a); [|reflexivity]. destruct play; reflexivity.
Qed.

(** ** Recording *)

Lemma ondataavailable_eq (data : Blob) (w : World) :
  ondataavailable data w =
  (Normal tt,
   {| query := query w; agentText := agentText w; loading := loading w;
      recording := recording w; weather := weather w; soil := soil w;
      mediaRecorderRef := mediaRecorderRef w;
      audioChunksRef := audioChunksRef w ++ filter has_data [data];
      audioRef := audioRef w; recorders := recorders w; trace := trace w |}).
Proof.
  unfold ondataavailable, bind. cbn [filter]. unfold has_data.
  destruct (0 <? size data)%nat; [reflexivity|].
  rewrite app_nil_r. destruct w; reflexivity.
Qed.

(** Chunks delivered by a recorder that records (or is stopping) are
    buffered in arrival order, those without data left out. *)
Lemma deliver_all_eq (r : nat) (rec : MediaRecorder.t jsstring)
  (chunks : list Blob) (w : World) :
  nth_error (recorders w) r = Some rec ->
  MediaRecorder.is_recording rec || MediaRecorder.stop_task rec = true ->
  deliver_all r chunks w =
  (Normal tt,
   {| query := query w; agentText := agentText w; loading := loading w;
      recording := recording w; weather := weather w; soil := soil w;
      mediaRecorderRef := mediaRecorderRef w;
      audioChunksRef := audioChunksRef w ++ filter has_data chunks;
      audioRef := audioRef w; recorders := recorders w; trace := trace w |}).
Proof.
  intros Hr Hrec. revert w Hr.
  induction chunks as [|c chunks IH]; intros w Hr.
  - cbn [deliver_all filter]. rewrite app_nil_r. destruct w; reflexivity.
  - cbn [deliver_all]. unfold bind at 1. unfold deliver_data, bind at 1.
    cbn [get]. rewrite Hr, Hrec, ondataavailable_eq.
    rewrite IH by (cbn [recorders]; exact Hr). cbn [recorders audioChunksRef query agentText
      loading recording weather soil mediaRecorderRef audioRef trace].
    rewrite <- app_assoc, <- filter_has_data_app. reflexivity.
Qed.

Lemma startRecording_granted (w : World) :
  startRecording Granted Constructed w =
  (Normal tt,
   {| query := query w; agentText := agentText w; loading := loading w;
      recording := true; weather := weather w; soil := soil w;
      mediaRecorderRef := Some (length (recorders w));
      audioChunksRef := [];
      audioRef := audioRef w;
      recorders :=
        recorders w ++ [MediaRecorder.start (MediaRecorder.create (query w))];
      trace := trace w |}).
Proof.
  unfold startRecording, try_catch, bind. handler_cbn.
  now rewrite MediaRecorderFacts.update_last.
Qed.

(** Without a microphone or a recorder, [startRecording] reports and leaves
    the page as it was. *)
Lemma startRecording_failed (w : World) (mic : MicOutcome)
  (ctor : RecorderOutcome) (e : Error) :
  mic = Refused e \/ (mic = Granted /\ ctor = Unsupported e) ->
  startRecording mic ctor w =
  (Normal tt,
   {| query := query w; agentText := agentText w; loading := loading w;
      recording := recording w; weather := weather w; soil := soil w;
      mediaRecorderRef := mediaRecorderRef w;
      audioChunksRef := audioChunksRef w;
      audioRef := audioRef w; recorders := recorders w;
      trace :=
        Alert (u "Microphone access is required to use voice features.")
        :: ConsoleError (u "Mic access error:") e :: trace w |}).
Proof.
  intros [-> | [-> ->]]; reflexivity.
Qed.

(** While idle, [stopRecording] leaves the world as it was; it returns
    normally unless the browser is strict and there is an old recorder to
    refuse the call. *)
Lemma stopRecording_idle (strict : bool) (w : World) :
  idle w = true ->
  run (stopRecording strict) w = w /\
  (strict = false \/ mediaRecorderRef w = None ->
   stopRecording strict w = (Normal tt, w)).
Proof.
  unfold idle, active, run, stopRecording, recorder_stop,
    MediaRecorder.stop_throws, bind.
  cbn [get]. intros H. apply andb_prop in H. destruct H as [Hrec Hact].
  apply negb_true_iff in Hrec, Hact.
  destruct (mediaRecorderRef w) as [r|] eqn:Href; [|now split].
  destruct (nth_error (recorders w) r) as [rec|] eqn:Hn.
  - rewrite Hact. destruct strict; cbn [andb negb throw snd].
    + split; [reflexivity|]. now intros [|].
    + handler_cbn.
      rewrite MediaRecorderFacts.update_same.
      * destruct w; cbn in *. subst. now split.
      * intros rec' Hn'. rewrite Hn in Hn'. inversion Hn'; subst rec'.
        now apply MediaRecorderFacts.stop_inactive.
  - handler_cbn. destruct w; cbn in *. subst. now split.
Qed.

Lemma stopRecording_eq (strict : bool) (w : World) (r : nat)
  (rec : MediaRecorder.t jsstring) :
  mediaRecorderRef w = Some r ->
  nth_error (recorders w) r = Some rec ->
  MediaRecorder.is_recording rec = true ->
  stopRecording strict w =
  (Normal tt,
   {| query := query w; agentText := agentText w; loading := loading w;
      recording := false; weather := weather w; soil := soil w;
      mediaRecorderRef := mediaRecorderRef w;
      audioChunksRef := audioChunksRef w;
      audioRef := audioRef w;
      recorders := MediaRecorder.update (recorders w) r MediaRecorder.stop;
      trace := trace w |}).
Proof.
  intros Href Hn Hrec.
  unfold stopRecording, recorder_stop, MediaRecorder.stop_throws, bind.
  cbn [get]. rewrite Href, Hn, Hrec, andb_false_r.
  handler_cbn. now rewrite Href.
Qed.

(** A session ends in one call of [fetchAgent] with the form built from
    every chunk that carried data, in arrival order. *)
Lemma session_eq (strict : bool) (w : World) (chunks : list Blob)
  (last : Blob) (net : FetchOutcome) (play : PlayOutcome) :
  session strict chunks last net play w =
  fetchAgent net play
    (voiceForm (query w) (filter has_data (chunks ++ [last])))
    (at_submission w (chunks ++ [last])).
Proof.
  unfold session. unfold bind at 1. cbn [get].
  unfold bind at 1. rewrite startRecording_granted.
  unfold bind at 1.
  rewrite (@deliver_all_eq (length (recorders w))
             (MediaRecorder.start (MediaRecorder.create (query w))));
    [|apply MediaRecorderFacts.nth_error_last|reflexivity].
  handler_cbn. unfold bind at 1.
  rewrite (@stopRecording_eq strict _ (length (recorders w))
             (MediaRecorder.start (MediaRecorder.create (query w))));
    [|reflexivity|apply MediaRecorderFacts.nth_error_last|reflexivity].
  handler_cbn. rewrite MediaRecorderFacts.update_last.
  unfold deliver_stop, bind at 1. cbn [get recorders].
  rewrite MediaRecorderFacts.nth_error_last.
  cbn [MediaRecorder.stop MediaRecorder.start MediaRecorder.create
       MediaRecorder.state MediaRecorder.stop_task MediaRecorder.closure].
  unfold bind at 1. rewrite ondataavailable_eq.
  unfold bind at 1. handler_cbn.
  unfold bind at 1. handler_cbn.
  rewrite MediaRecorderFacts.update_last.
  unfold onstop, bind at 1. handler_cbn.
  unfold at_submission, voiceForm.
  rewrite !filter_has_data_app. reflexivity.
Qed.

(** Whatever the network answers, [fetchAgent] makes its one request first
    and none after it. *)
Lemma fetchAgent_trace (w : World) (net : FetchOutcome) (play : PlayOutcome)
  (fd : FormData) :
  exists evs,
    trace (run (fetchAgent net play fd) w)
    = evs ++ Fetch (backend ++ u "/agent") fd :: trace w /\
    requests evs = [].
Proof.
  destruct net as [e|status body].
  - eexists [_; _]. split; reflexivity.
  - destruct (ok status) eqn:Hok.
    + destruct body as [e|data].
      * rewrite trace_not_json by exact Hok. eexists [_; _]. split; reflexivity.
      * rewrite trace_success by exact Hok. eexists. split; [reflexivity|].
        unfold playEvents. destruct (Raw.audio_url data) as [a|]; [|reflexivity].
        destruct (str_truthy a); [|reflexivity]. destruct play; reflexivity.
    + unfold run. rewrite fetchAgent_refused by exact Hok.
      eexists [_; _]. split; reflexivity.
Qed.

End IrrigationFacts.

(* ===================================================================== *)
(** * Facts about the handlers of the landing page *)
(* ===================================================================== *)

Module HomeFacts.
Import Home.

Ltac home_cbn :=
  cbn [ret throw modify get negb fst snd
       setLoading setAgentText setRecording set_mediaRecorderRef
       set_audioChunksRef set_recorders set_onended emit
       agentText recording loading mediaRecorderRef audioChunksRef recorders
       onended trace].

(** A reply with a status outside 200-299 stops at the throw. *)
Lemma sendToBackend_refused (w : World) (play : PlayOutcome)
  (status : N) (body : Body) :
  ok status = false ->
  sendToBackend (Response status body) play w =
  (Normal tt,
   {| agentText := agentText w; recording := recording w; loading := false;
      mediaRecorderRef := mediaRecorderRef w;
      audioChunksRef := audioChunksRef w; recorders := recorders w;
      onended := onended w;
      trace :=
        Alert (u "Failed to process audio. Please try again.")
        :: ConsoleError (u "❌ Error sending audio:")
             (new_Error (u "Server error: " ++ decimal status))
        :: request w :: trace w |}).
Proof.
  intros Hok.
  unfold sendToBackend, try_catch_finally, try_catch, fetch, json, when, bind.
  home_cbn. rewrite Hok. reflexivity.
Qed.

(** ** The reply *)

Lemma home_playReply_eq (data : Raw.AgentResponse) (play : PlayOutcome)
  (w : World) :
  playReply data play w =
  (Normal tt,
   {| agentText := agentText w; recording := recording w; loading := loading w;
      mediaRecorderRef := mediaRecorderRef w;
      audioChunksRef := audioChunksRef w; recorders := recorders w;
      onended := playHandlers data play (onended w);
      trace := playEvents data play ++ trace w |}).
Proof.
  assert (Hr : redirectIfAsked data w =
               (Normal tt,
                {| agentText := agentText w; recording := recording w;
                   loading := loading w;
                   mediaRecorderRef := mediaRecorderRef w;
                   audioChunksRef := audioChunksRef w;
                   recorders := recorders w; onended := onended w;
                   trace := redirectEvents data ++ trace w |})).
  { unfold redirectIfAsked, redirectEvents, when.
    destruct w, (Raw.redirect data) as [[|]|], (Raw.redirect_url data) as [url|];
      try reflexivity.
    destruct (str_truthy url); reflexivity. }
  unfold playReply, playEvents, playHandlers.
  destruct (Raw.audio_url data) as [a|].
  - destruct (str_truthy a).
    + destruct play as [|e].
      * destruct w; reflexivity.
      * unfold try_catch, audio_play, bind. home_cbn.
        unfold redirectIfAsked, redirectEvents, when.
        destruct w, (Raw.redirect data) as [[|]|],
          (Raw.redirect_url data) as [url|]; try reflexivity.
        destruct (str_truthy url); reflexivity.
    + rewrite Hr. now destruct play.
  - rewrite Hr. now destruct play.
Qed.

Lemma sendToBackend_success (w : World) (play : PlayOutcome)
  (status : N) (data : Raw.AgentResponse) :
  ok status = true ->
  sendToBackend (Response status (Json data)) play w =
  (Normal tt,
   {| agentText := or_else str_truthy (Raw.message data) [];
      recording := recording w; loading := false;
      mediaRecorderRef := mediaRecorderRef w;
      audioChunksRef := audioChunksRef w; recorders := recorders w;
      onended := playHandlers data play (onended w);
      trace :=
        playEvents data play
        ++ ConsoleLog (u "Backend response:") data :: request w :: trace w |}).
Proof.
  intros Hok.
  unfold sendToBackend, try_catch_finally, try_catch, fetch, json, when, bind.
  home_cbn. rewrite Hok. home_cbn. rewrite home_playReply_eq. reflexivity.
Qed.

Lemma sendToBackend_trace (w : World) (net : FetchOutcome) (play : PlayOutcome) :
  exists evs,
    trace (run (sendToBackend net play) w) = evs ++ request w :: trace w /\
    requests evs = [].
Proof.
  destruct net as [e|status body].
  - eexists [_; _]. split; reflexivity.
  - destruct (ok status) eqn:Hok.
    + destruct body as [e|data].
      * unfold run, sendToBackend, try_catch_finally, try_catch, fetch, json,
          when, bind.
        home_cbn. rewrite Hok. eexists [_; _]. split; reflexivity.
      * unfold run. rewrite sendToBackend_success by exact Hok.
        eexists (_ ++ [_]). rewrite <- app_assoc. split; [reflexivity|].
        unfold playEvents, redirectEvents.
        destruct (Raw.audio_url data) as [a|], (Raw.redirect data) as [[|]|],
          (Raw.redirect_url data) as [url|], play;
          try reflexivity;
          try (destruct (str_truthy a); try reflexivity);
          destruct (str_truthy url); reflexivity.
    + unfold run. rewrite sendToBackend_refused by exact Hok.
      eexists [_; _]. split; reflexivity.
Qed.

(** ** Recording *)

Lemma home_ondataavailable_eq (data : Blob) (w : World) :
  ondataavailable data w =
  (Normal tt,
   {| agentText := agentText w; recording := recording w; loading := loading w;
      mediaRecorderRef := mediaRecorderRef w;
      audioChunksRef := audioChunksRef w ++ filter has_data [data];
      recorders := recorders w; onended := onended w; trace := trace w |}).
Proof.
  unfold ondataavailable, bind. cbn [filter]. unfold has_data.
  destruct (0 <? size data)%nat; [reflexivity|].
  rewrite app_nil_r. destruct w; reflexivity.
Qed.

Lemma home_deliver_all_eq (r : nat) (rec : MediaRecorder.t unit)
  (chunks : list Blob) (w : World) :
  nth_error (recorders w) r = Some rec ->
  MediaRecorder.is_recording rec || MediaRecorder.stop_task rec = true ->
  deliver_all r chunks w =
  (Normal tt,
   {| agentText := agentText w; recording := recording w; loading := loading w;
      mediaRecorderRef := mediaRecorderRef w;
      audioChunksRef := audioChunksRef w ++ filter has_data chunks;
      recorders := recorders w; onended := onended w; trace := trace w |}).
Proof.
  intros Hr Hrec. revert w Hr.
  induction chunks as [|c chunks IH]; intros w Hr.
  - cbn [deliver_all filter]. rewrite app_nil_r. destruct w; reflexivity.
  - cbn [deliver_all]. unfold bind at 1. unfold deliver_data, bind at 1.
    cbn [get]. rewrite Hr, Hrec, home_ondataavailable_eq.
    rewrite IH by (cbn [recorders]; exact Hr). home_cbn.
    rewrite <- app_assoc, <- filter_has_data_app. reflexivity.
Qed.

Lemma home_startRecording_granted (w : World) :
  startRecording Granted Constructed w =
  (Normal tt,
   {| agentText := agentText w; recording := true; loading := loading w;
      mediaRecorderRef := Some (length (recorders w));
      audioChunksRef := [];
      recorders :=
        recorders w ++ [MediaRecorder.start (MediaRecorder.create tt)];
      onended := onended w; trace := trace w |}).
Proof.
  unfold startRecording, try_catch, bind. home_cbn.
  now rewrite MediaRecorderFacts.update_last.
Qed.

Lemma home_startRecording_failed (w : World) (mic : MicOutcome)
  (ctor : RecorderOutcome) (e : Error) :
  mic = Refused e \/ (mic = Granted /\ ctor = Unsupported e) ->
  startRecording mic ctor w =
  (Normal tt,
   {| agentText := agentText w; recording := recording w; loading := loading w;
      mediaRecorderRef := mediaRecorderRef w;
      audioChunksRef := audioChunksRef w; recorders := recorders w;
      onended := onended w;
      trace :=
        Alert (u "Microphone access is required to use voice features.")
        :: ConsoleError (u "❌ Mic access error:") e :: trace w |}).
Proof.
  intros [-> | [-> ->]]; reflexivity.
Qed.

(** While idle, [stopRecording] leaves the world as it was; it returns
    normally unless the browser is strict and there is an old recorder to
    refuse the call. *)
Lemma home_stopRecording_idle (strict : bool) (w : World) :
  idle w = true ->
  run (stopRecording strict) w = w /\
  (strict = false \/ mediaRecorderRef w = None ->
   stopRecording strict w = (Normal tt, w)).
Proof.
  unfold idle, active, run, stopRecording, recorder_stop,
    MediaRecorder.stop_throws, bind.
  cbn [get]. intros H. apply andb_prop in H. destruct H as [Hrec Hact].
  apply negb_true_iff in Hrec, Hact.
  destruct (mediaRecorderRef w) as [r|] eqn:Href; [|now split].
  destruct (nth_error (recorders w) r) as [rec|] eqn:Hn.
  - rewrite Hact. destruct strict; cbn [andb negb throw snd].
    + split; [reflexivity|]. now intros [|].
    + home_cbn.
      rewrite MediaRecorderFacts.update_same.
      * destruct w; cbn in *. subst. now split.
      * intros rec' Hn'. rewrite Hn in Hn'. inversion Hn'; subst rec'.
        now apply MediaRecorderFacts.stop_inactive.
  - home_cbn. destruct w; cbn in *. subst. now split.
Qed.

Lemma home_stopRecording_eq (strict : bool) (w : World) (r : nat)
  (rec : MediaRecorder.t unit) :
  mediaRecorderRef w = Some r ->
  nth_error (recorders w) r = Some rec ->
  MediaRecorder.is_recording rec = true ->
  stopRecording strict w =
  (Normal tt,
   {| agentText := agentText w; recording := false; loading := loading w;
      mediaRecorderRef := mediaRecorderRef w;
      audioChunksRef := audioChunksRef w;
      recorders := MediaRecorder.update (recorders w) r MediaRecorder.stop;
      onended := onended w; trace := trace w |}).
Proof.
  intros Href Hn Hrec.
  unfold stopRecording, recorder_stop, MediaRecorder.stop_throws, bind.
  cbn [get]. rewrite Href, Hn, Hrec, andb_false_r.
  home_cbn. now rewrite Href.
Qed.

Lemma home_session_eq (strict : bool) (w : World) (chunks : list Blob)
  (last : Blob) (net : FetchOutcome) (play : PlayOutcome) :
  session strict chunks last net play w =
  sendToBackend net play (at_submission w (chunks ++ [last])).
Proof.
  unfold session. unfold bind at 1. cbn [get].
  unfold bind at 1. rewrite home_startRecording_granted.
  unfold bind at 1.
  rewrite (@home_deliver_all_eq (length (recorders w))
             (MediaRecorder.start (MediaRecorder.create tt)));
    [|apply MediaRecorderFacts.nth_error_last|reflexivity].
  home_cbn. unfold bind at 1.
  rewrite (@home_stopRecording_eq strict _ (length (recorders w))
             (MediaRecorder.start (MediaRecorder.create tt)));
    [|reflexivity|apply MediaRecorderFacts.nth_error_last|reflexivity].
  home_cbn. rewrite MediaRecorderFacts.update_last.
  unfold deliver_stop, bind at 1. cbn [get recorders].
  rewrite MediaRecorderFacts.nth_error_last.
  cbn [MediaRecorder.stop MediaRecorder.start MediaRecorder.create
       MediaRecorder.state MediaRecorder.stop_task MediaRecorder.closure].
  unfold bind at 1. rewrite home_ondataavailable_eq.
  unfold bind at 1. home_cbn.
  unfold bind at 1. home_cbn.
  rewrite MediaRecorderFacts.update_last.
  unfold at_submission.
  rewrite !filter_has_data_app. reflexivity.
Qed.

End HomeFacts.

(* ===================================================================== *)
(** * The reply on display (irrigation page) *)
(* ===================================================================== *)

Import Irrigation.

(** C1 (as the code has it). When the reply carries a structured [weather]
    (or [soil]) object, what [fetchAgent] displays for that field is built
    from the object alone, whatever the [message] says, pattern or not: each
    subfield is the object's value when that value is present and truthy, and
    otherwise the default of the structured path (["Unknown"], ["N/A"], [0]
    for weather; [0], [7], ["medium"] for soil). The text is never consulted
    and no value captured from it is displayed. *)
Theorem C1_structured_reply_wins (w : World) (fd : FormData)
  (play : PlayOutcome) (status : N) (data : Raw.AgentResponse)
  (msg : option jsstring) :
  ok status = true ->
  let w' :=
    run (fetchAgent (Response status (Json (with_message data msg))) play fd) w
  in
  (forall o,
      Raw.weather data = Some o ->
      weather w' =
      Some {| location :=
                match name_of o with
                | Some (c :: l) => c :: l
                | Some [] | None => u "Unknown"
                end;
              condition :=
                match text_of o with
                | Some (c :: l) => c :: l
                | Some [] | None => u "N/A"
                end;
              temp_c :=
                OfNumber match temp_of o with
                         | Some t => if num_truthy t then t else 0%float
                         | None => 0%float
                         end |}) /\
  (forall o,
      Raw.soil data = Some o ->
      soil w' =
      Some {| moisture :=
                match Raw.moisture o with
                | Some m => if num_truthy m then m else 0%float
                | None => 0%float
                end;
              ph :=
                Some match Raw.ph o with
                     | Some a => if num_truthy a then a else 7%float
                     | None => 7%float
                     end;
              nitrogen :=
                Some match Raw.nitrogen o with
                     | Some (c :: l) => c :: l
                     | Some [] | None => u "medium"
                     end;
              phosphorus :=
                Some match Raw.phosphorus o with
                     | Some (c :: l) => c :: l
                     | Some [] | None => u "medium"
                     end;
              potassium :=
                Some match Raw.potassium o with
                     | Some (c :: l) => c :: l
                     | Some [] | None => u "medium"
                     end |}).
Proof.
  intros Hok w'. subst w'.
  rewrite IrrigationFacts.shown_weather by exact Hok.
  rewrite IrrigationFacts.shown_soil by exact Hok.
  cbn [with_message Raw.weather Raw.soil Raw.message].
  split.
  - intros o ->. unfold weatherOfObject, name_of, text_of, temp_of, or_else.
    destruct (chain (Raw.location o) Raw.name) as [[|? ?]|],
      (chain (chain (Raw.current o) Raw.condition) Raw.text) as [[|? ?]|],
      (chain (Raw.current o) Raw.temp_c) as [t|]; reflexivity.
  - intros o ->. unfold soilOfObject, or_else.
    destruct (Raw.moisture o), (Raw.ph o), (Raw.nitrogen o) as [[|? ?]|],
      (Raw.phosphorus o) as [[|? ?]|], (Raw.potassium o) as [[|? ?]|];
      reflexivity.
Qed.

(** A reply with both sources: the structured values are displayed, not the
    ones the text would give. *)
Lemma C1_structured_reply_wins_witness :
  let w' := run (fetchAgent (Response 200 (Json reply_both)) Started []) initial in
  weather w' =
  Some {| location := u "Delhi"; condition := u "Sunny";
          temp_c := OfNumber 31%float |} /\
  soil w' =
  Some {| moisture := 55%float; ph := Some 6.5%float;
          nitrogen := Some (u "high"); phosphorus := Some (u "low");
          potassium := Some (u "medium") |}.
Proof.
  pose proof (@C1_structured_reply_wins initial [] Started 200 reply_both
                (Raw.message reply_both) eq_refl) as H.
  cbv zeta in H. destruct H as (Hw & Hs).
  split.
  - exact (Hw weather_delhi eq_refl).
  - exact (Hs soil_wet eq_refl).
Defined.

(** C1 as stated fails: the reply holds a structured weather whose location
    name is the empty string and a structured soil whose ph is zero and whose
    potassium level is the empty string, and a message both patterns match.
    The page displays ["Unknown"], [7] and ["medium"]: not the values the
    objects hold (and not the ones in the text either). *)
Lemma C1_counterexample :
  let w' :=
    run (fetchAgent (Response 200 (Json reply_both_falsy)) Started []) initial in
  (RegExp.exec weatherRe
     (u "Weather in Pune is Clear with temperature 30.5°C, soil moisture 42%")
   <> None /\
   RegExp.exec soilRe
     (u "Weather in Pune is Clear with temperature 30.5°C, soil moisture 42%")
   <> None) /\
  (name_of weather_unnamed = Some [] /\
   option_map location (weather w') = Some (u "Unknown") /\
   u "Unknown" <> []) /\
  (Raw.ph soil_sour = Some 0%float /\
   option_map ph (soil w') = Some (Some 7%float) /\
   7%float <> 0%float) /\
  (Raw.potassium soil_sour = Some [] /\
   option_map potassium (soil w') = Some (Some (u "medium")) /\
   u "medium" <> []).
Proof.
  cbv zeta. split; [split; vm_compute; discriminate|].
  split; [split; [reflexivity|split; [vm_compute; reflexivity|discriminate]]|].
  split.
  - split; [reflexivity|]. split; [vm_compute; reflexivity|].
    intros H. apply (f_equal PrimFloat.is_zero) in H. vm_compute in H.
    discriminate.
  - split; [reflexivity|split; [vm_compute; reflexivity|discriminate]].
Qed.

(** C6 (as the code has it). With a structured [weather] object, each of
    location, condition and temperature is the object's value when that
    subfield is present and truthy (a non-empty string, a number other than
    zero and NaN), and the default ["Unknown"], ["N/A"], [0] otherwise, each
    subfield on its own. *)
Theorem C6_weather_subfields (w : World) (fd : FormData) (play : PlayOutcome)
  (status : N) (data : Raw.AgentResponse) (o : Raw.Weather) :
  ok status = true ->
  Raw.weather data = Some o ->
  exists v,
    weather (run (fetchAgent (Response status (Json data)) play fd) w) = Some v /\
    (forall n, name_of o = Some n -> n <> [] -> location v = n) /\
    (name_of o = None \/ name_of o = Some [] -> location v = u "Unknown") /\
    (forall c, text_of o = Some c -> c <> [] -> condition v = c) /\
    (text_of o = None \/ text_of o = Some [] -> condition v = u "N/A") /\
    (forall t, temp_of o = Some t -> num_truthy t = true ->
               temp_c v = OfNumber t) /\
    (temp_of o = None \/ (exists t, temp_of o = Some t /\ num_truthy t = false) ->
     temp_c v = OfNumber 0%float).
Proof.
  intros Hok Ho. exists (weatherOfObject o).
  rewrite IrrigationFacts.shown_weather by exact Hok. rewrite Ho.
  split; [reflexivity|].
  unfold weatherOfObject, name_of, text_of, temp_of. cbn [location condition temp_c].
  repeat split.
  - intros n -> Hn. destruct n; [congruence|reflexivity].
  - intros [-> | ->]; reflexivity.
  - intros c -> Hc. destruct c; [congruence|reflexivity].
  - intros [-> | ->]; reflexivity.
  - intros t -> Ht. unfold or_else. now rewrite Ht.
  - intros [-> | (t & -> & Ht)]; [reflexivity|]. unfold or_else. now rewrite Ht.
Qed.

Lemma C6_weather_subfields_witness :
  exists v,
    weather (run (fetchAgent (Response 200 (Json reply_unnamed)) Started []) initial)
    = Some v /\
    location v = u "Unknown" /\ condition v = u "Sunny" /\
    temp_c v = OfNumber 20%float.
Proof.
  destruct (@C6_weather_subfields initial [] Started 200 reply_unnamed
              weather_unnamed eq_refl eq_refl)
    as (v & Hv & _ & Hl & Hc & _ & Ht & _).
  exists v. split; [exact Hv|]. split; [|split].
  - apply Hl. right. reflexivity.
  - apply (Hc (u "Sunny")); [reflexivity|discriminate].
  - apply (Ht 20%float); reflexivity.
Defined.

(** C6 as stated fails: the location name is present in the structured
    object (it is the empty string), yet the displayed location is the
    default ["Unknown"], not the value provided. *)
Lemma C6_counterexample :
  name_of weather_unnamed = Some [] /\
  option_map location
    (weather (run (fetchAgent (Response 200 (Json reply_unnamed)) Started []) initial))
  = Some (u "Unknown") /\
  u "Unknown" <> [].
Proof.
  split; [reflexivity|]. split; [vm_compute; reflexivity|discriminate].
Qed.

(** C7. With no [weather] object and the message
    ["Weather in Pune is Clear with temperature 30.5°C"], the page displays
    location ["Pune"], condition ["Clear"] and the temperature as the captured
    text ["30.5"], not converted to a number. *)
Theorem C7_weather_from_text (w : World) (fd : FormData) (play : PlayOutcome)
  (status : N) (data : Raw.AgentResponse) :
  ok status = true ->
  Raw.weather data = None ->
  Raw.message data = Some (u "Weather in Pune is Clear with temperature 30.5°C") ->
  weather (run (fetchAgent (Response status (Json data)) play fd) w) =
  Some {| location := u "Pune"; condition := u "Clear";
          temp_c := OfString (u "30.5") |}.
Proof.
  intros Hok Hw Hm.
  rewrite IrrigationFacts.shown_weather by exact Hok. rewrite Hw, Hm.
  vm_compute. reflexivity.
Qed.

Lemma C7_weather_from_text_witness :
  weather (run (fetchAgent (Response 200 (Json reply_pune)) Started []) initial) =
  Some {| location := u "Pune"; condition := u "Clear";
          temp_c := OfString (u "30.5") |}.
Proof.
  apply (@C7_weather_from_text initial [] Started 200 reply_pune);
    reflexivity.
Defined.

(** C2 (as the code has it). With no [soil] object and a message whose first
    occurrence of [soil moisture <digits>%] carries the digits [ds], the page
    displays a soil whose moisture is [Number(ds)] and whose [ph], [nitrogen],
    [phosphorus] and [potassium] are absent: the defaults of the structured
    path are not applied to it. *)
Theorem C2_soil_from_text (w : World) (fd : FormData) (play : PlayOutcome)
  (status : N) (data : Raw.AgentResponse) (p ds r : jsstring) :
  ok status = true ->
  Raw.soil data = None ->
  Raw.message data = Some (p ++ u "soil moisture " ++ ds ++ u "%" ++ r) ->
  digits ds = true ->
  (forall p' ds' r',
      p ++ u "soil moisture " ++ ds ++ u "%" ++ r
      = p' ++ u "soil moisture " ++ ds' ++ u "%" ++ r' ->
      digits ds' = true -> (length p <= length p')%nat) ->
  soil (run (fetchAgent (Response status (Json data)) play fd) w) =
  Some {| moisture := Number ds; ph := None; nitrogen := None;
          phosphorus := None; potassium := None |}.
Proof.
  intros Hok Hs Hm Hd Hfirst.
  rewrite IrrigationFacts.shown_soil by exact Hok. rewrite Hs, Hm.
  destruct (@IrrigationFacts.soilRe_exec p ds r Hd Hfirst) as [full ->].
  destruct p; reflexivity.
Qed.

Lemma C2_soil_from_text_witness :
  soil (run (fetchAgent (Response 200 (Json reply_field)) Started []) initial) =
  Some {| moisture := 42%float; ph := None; nitrogen := None;
          phosphorus := None; potassium := None |}.
Proof.
  apply (@C2_soil_from_text initial [] Started 200 reply_field
           (u "Field has ") (u "42") []); try reflexivity.
  intros p' ds' r' H _.
  do 10 (destruct p' as [|? p']; [vm_compute in H; discriminate H|]).
  cbn. lia.
Defined.

(** C2 as stated fails on the input of the specification: the soil built from
    the text ["Field has soil moisture 42%"] has moisture 42 and no [ph],
    [nitrogen], [phosphorus] or [potassium]; it is not the soil with ph 7 and
    the three levels ["medium"]. *)
Lemma C2_counterexample :
  soil (run (fetchAgent (Response 200 (Json reply_field)) Started []) initial)
  <> Some {| moisture := 42%float; ph := Some 7%float;
             nitrogen := Some (u "medium"); phosphorus := Some (u "medium");
             potassium := Some (u "medium") |}.
Proof.
  vm_compute. discriminate.
Qed.

(** C3 (as the code has it). When the reply has a status outside 200-299, the
    handler throws an [Error] whose message carries the status, logs it and
    shows a generic alert, and reads nothing of the reply. On the irrigation
    page the message, weather and soil on display were cleared when the
    submission began, so they end empty whatever was displayed before; on the
    landing page the message on display is left as it was. *)
Theorem C3_refused_submission (w : World) (h : Home.World) (fd : FormData)
  (play : PlayOutcome) (status : N) (body : Body) :
  ok status = false ->
  let w' := run (fetchAgent (Response status body) play fd) w in
  let h' := run (Home.sendToBackend (Response status body) play) h in
  trace w' =
    Alert (u "Failed to fetch advice. Try again.")
    :: ConsoleError (u "Error:")
         (new_Error (u "Server error: " ++ decimal status))
    :: Fetch (backend ++ u "/agent") fd :: trace w /\
  (agentText w', weather w', soil w') = ([], None, None) /\
  loading w' = false /\
  Home.trace h' =
    Alert (u "Failed to process audio. Please try again.")
    :: ConsoleError (u "❌ Error sending audio:")
         (new_Error (u "Server error: " ++ decimal status))
    :: Home.request h :: Home.trace h /\
  Home.agentText h' = Home.agentText h /\
  Home.loading h' = false.
Proof.
  intros Hok w' h'. subst w' h'. unfold run.
  rewrite IrrigationFacts.fetchAgent_refused by exact Hok.
  rewrite HomeFacts.sendToBackend_refused by exact Hok.
  repeat split.
Qed.

Lemma C3_refused_submission_witness :
  let w' := run (fetchAgent (Response 500 (Json reply_field)) Started []) showing_old in
  err_message (new_Error (u "Server error: " ++ decimal 500))
  = u "Server error: 500" /\
  (agentText w', weather w', soil w') = ([], None, None).
Proof.
  split; [reflexivity|].
  exact (proj1 (proj2 (@C3_refused_submission showing_old
                         (Home.initial) [] Started 500 (Json reply_field)
                         eq_refl))).
Defined.

(** C3 as stated fails: after a reply with status 500 the message, weather
    and soil that were on display are gone, not left untouched. *)
Lemma C3_counterexample :
  let w' := run (fetchAgent (Response 500 (Json reply_field)) Started []) showing_old in
  (agentText w', weather w', soil w')
  <> (agentText showing_old, weather showing_old, soil showing_old).
Proof.
  vm_compute. discriminate.
Qed.

(** C10. On the irrigation page the reply handler never navigates: whatever
    the network answers, [fetchAgent] adds no navigation to the trace; and it
    does not read the redirect keys: replies that differ in them only are
    handled alike. *)
Theorem C10_irrigation_never_navigates :
  (forall (w : World) (net : FetchOutcome) (play : PlayOutcome) (fd : FormData),
      navigations (trace (run (fetchAgent net play fd) w))
      = navigations (trace w)) /\
  (forall (w : World) (play : PlayOutcome) (fd : FormData) (status : N)
          (data : Raw.AgentResponse) (rd : option bool) (url : option jsstring),
      fetchAgent (Response status (Json (with_redirect data rd url))) play fd w
      = fetchAgent (Response status (Json data)) play fd w).
Proof.
  split.
  - intros w [e|status body] play fd.
    + reflexivity.
    + destruct (ok status) eqn:Hok.
      * destruct body as [e|data].
        -- rewrite IrrigationFacts.trace_not_json by exact Hok. reflexivity.
        -- rewrite IrrigationFacts.trace_success by exact Hok.
           unfold navigations at 1. rewrite flat_map_app.
           fold (navigations (playEvents data play)).
           now rewrite IrrigationFacts.navigations_playEvents.
      * unfold run. rewrite IrrigationFacts.fetchAgent_refused by exact Hok.
        reflexivity.
  - intros w play fd status data rd url.
    destruct (ok status) eqn:Hok.
    + rewrite !IrrigationFacts.fetchAgent_success by exact Hok.
      unfold run.
      rewrite !IrrigationFacts.playReply_eq, !IrrigationFacts.showSoil_eq,
        !IrrigationFacts.showWeather_eq.
      reflexivity.
    + now rewrite !IrrigationFacts.fetchAgent_refused by exact Hok.
Qed.

(* ===================================================================== *)
(** * The recording controller (both pages) *)
(* ===================================================================== *)

(** C4. While idle (the page shows no recording and its recorder, if it has
    one, is inactive), [stopRecording] changes nothing at all: the world it
    leaves is the world it was given, so no request is made and no [stop]
    task is queued. This holds after a finished session too, when
    [mediaRecorderRef] still holds the old recorder, and in a strict browser
    as in a lenient one. *)
Theorem C4_stop_when_idle (strict : bool) (w : World) (h : Home.World) :
  idle w = true ->
  Home.idle h = true ->
  run (stopRecording strict) w = w /\
  requests (trace (run (stopRecording strict) w)) = requests (trace w) /\
  run (Home.stopRecording strict) h = h /\
  requests (Home.trace (run (Home.stopRecording strict) h))
  = requests (Home.trace h) /\
  stopRecording false w = (Normal tt, w) /\
  Home.stopRecording false h = (Normal tt, h).
Proof.
  intros Hw Hh.
  destruct (IrrigationFacts.stopRecording_idle strict _ Hw) as [-> _].
  destruct (HomeFacts.home_stopRecording_idle strict _ Hh) as [-> _].
  destruct (IrrigationFacts.stopRecording_idle false _ Hw) as [_ ->];
    [|now left].
  destruct (HomeFacts.home_stopRecording_idle false _ Hh) as [_ ->];
    [|now left].
  repeat split.
Qed.

(** After a whole session the recorder is still in [mediaRecorderRef], and a
    further [stopRecording] changes nothing. *)
Lemma C4_stop_when_idle_witness :
  mediaRecorderRef after_session = Some 0%nat /\
  Home.mediaRecorderRef Home.after_session = Some 0%nat /\
  run (stopRecording true) after_session = after_session /\
  run (Home.stopRecording true) Home.after_session = Home.after_session.
Proof.
  split; [reflexivity|]. split; [reflexivity|].
  destruct (@C4_stop_when_idle true after_session Home.after_session
              eq_refl eq_refl) as (H1 & _ & H2 & _).
  split; [exact H1|exact H2].
Defined.

(** C5 (as the code has it). While recording, the voice panel renders the
    Stop control only. [startRecording] itself has no guard: when the
    microphone or the recorder is refused it reports and leaves the recorder,
    the flag and the chunk buffer as they were; when both are granted it
    creates a second recorder, puts it in [mediaRecorderRef] and resets the
    chunk buffer to empty. *)
Theorem C5_start_while_recording (w : World) (h : Home.World) :
  is_recording w = true ->
  Home.is_recording h = true ->
  (voiceControl w = StopButton /\ Home.voiceControl h = StopButton) /\
  (forall mic ctor e,
      mic = Refused e \/ (mic = Granted /\ ctor = Unsupported e) ->
      let w' := run (startRecording mic ctor) w in
      let h' := run (Home.startRecording mic ctor) h in
      (recording w', mediaRecorderRef w', recorders w', audioChunksRef w')
      = (recording w, mediaRecorderRef w, recorders w, audioChunksRef w) /\
      (Home.recording h', Home.mediaRecorderRef h', Home.recorders h',
       Home.audioChunksRef h')
      = (Home.recording h, Home.mediaRecorderRef h, Home.recorders h,
         Home.audioChunksRef h)) /\
  (let w' := run (startRecording Granted Constructed) w in
   let h' := run (Home.startRecording Granted Constructed) h in
   audioChunksRef w' = [] /\
   mediaRecorderRef w' = Some (length (recorders w)) /\
   recorders w' =
     recorders w ++ [MediaRecorder.start (MediaRecorder.create (query w))] /\
   recording w' = true /\
   Home.audioChunksRef h' = [] /\
   Home.mediaRecorderRef h' = Some (length (Home.recorders h)) /\
   Home.recorders h' =
     Home.recorders h ++ [MediaRecorder.start (MediaRecorder.create tt)] /\
   Home.recording h' = true).
Proof.
  intros Hw Hh.
  apply andb_prop in Hw. destruct Hw as [Hw _].
  apply andb_prop in Hh. destruct Hh as [Hh _].
  split; [|split].
  - unfold voiceControl, Home.voiceControl. now rewrite Hw, Hh.
  - intros mic ctor e Hfail w' h'. subst w' h'. unfold run.
    rewrite (IrrigationFacts.startRecording_failed w Hfail).
    rewrite (HomeFacts.home_startRecording_failed h Hfail).
    split; reflexivity.
  - unfold run.
    rewrite IrrigationFacts.startRecording_granted.
    rewrite HomeFacts.home_startRecording_granted.
    repeat split.
Qed.

Lemma C5_start_while_recording_witness :
  voiceControl mid_recording = StopButton /\
  audioChunksRef (run (startRecording Granted Constructed) mid_recording) = [] /\
  Home.audioChunksRef
    (run (Home.startRecording Granted Constructed) Home.mid_recording) = [].
Proof.
  destruct (@C5_start_while_recording mid_recording Home.mid_recording
              eq_refl eq_refl) as ((Hc & _) & _ & Hg).
  cbv zeta in Hg. destruct Hg as (Hw & _ & _ & _ & Hh & _).
  split; [exact Hc|]. split; [exact Hw|exact Hh].
Defined.

(** C5 as stated fails: the page is recording with one chunk in the buffer,
    [startRecording] runs with the microphone granted, and the buffer is
    empty afterwards. *)
Lemma C5_counterexample :
  is_recording mid_recording = true /\
  audioChunksRef mid_recording = [chunk_a] /\
  audioChunksRef (run (startRecording Granted Constructed) mid_recording)
  <> audioChunksRef mid_recording.
Proof.
  split; [reflexivity|]. split; [reflexivity|]. vm_compute. discriminate.
Qed.

(** C9 (as the code has it). In a recording session the chunks that carry
    data are appended to the buffer in arrival order, a chunk of size zero is
    skipped, and the one request of the session posts one blob made of the
    buffered chunks in that order; its bytes are the bytes of every chunk
    delivered, in arrival order, the last one included. *)
Theorem C9_chunks_in_order (strict : bool) (w : World) (h : Home.World)
  (chunks : list Blob) (last : Blob) (net : FetchOutcome) (play : PlayOutcome) :
  let all := chunks ++ [last] in
  let artifact := new_Blob (filter has_data all) (u "audio/webm") in
  audioChunksRef
    (run (startRecording Granted Constructed ;;
          deliver_all (length (recorders w)) chunks) w)
  = filter has_data chunks /\
  (exists evs,
      trace (run (session strict chunks last net play) w)
      = evs ++ Fetch (backend ++ u "/agent")
                 (voiceForm (query w) (filter has_data all)) :: trace w /\
      requests evs = []) /\
  audio_parts (voiceForm (query w) (filter has_data all)) = [artifact] /\
  Home.audioChunksRef
    (run (Home.startRecording Granted Constructed ;;
          Home.deliver_all (length (Home.recorders h)) chunks) h)
  = filter has_data chunks /\
  (exists evs,
      Home.trace (run (Home.session strict chunks last net play) h)
      = evs ++ Fetch (backend ++ u "/agent")
                 [(u "audio", File artifact (u "customer_audio.webm"))]
            :: Home.trace h /\
      requests evs = []) /\
  bytes artifact = concat (map bytes all).
Proof.
  intros all artifact. subst all artifact.
  split; [|split; [|split; [|split; [|split]]]].
  - unfold run, bind. rewrite IrrigationFacts.startRecording_granted.
    rewrite (@IrrigationFacts.deliver_all_eq (length (recorders w))
               (MediaRecorder.start (MediaRecorder.create (query w))));
      [reflexivity|apply MediaRecorderFacts.nth_error_last|reflexivity].
  - unfold run. rewrite IrrigationFacts.session_eq.
    apply (IrrigationFacts.fetchAgent_trace
             (at_submission w (chunks ++ [last])) net play).
  - unfold voiceForm. destruct (negb (str_eqb (trim (query w)) []));
      reflexivity.
  - unfold run, bind. rewrite HomeFacts.home_startRecording_granted.
    rewrite (@HomeFacts.home_deliver_all_eq (length (Home.recorders h))
               (MediaRecorder.start (MediaRecorder.create tt)));
      [reflexivity|apply MediaRecorderFacts.nth_error_last|reflexivity].
  - unfold run. rewrite HomeFacts.home_session_eq.
    apply (HomeFacts.sendToBackend_trace
             (Home.at_submission h (chunks ++ [last])) net play).
  - apply bytes_has_data.
Qed.

(** C9 as stated fails: a chunk of size zero is delivered during the session
    and is not in the buffer. *)
Lemma C9_counterexample :
  audioChunksRef
    (run (startRecording Granted Constructed ;;
          deliver_all 0 [chunk_a; chunk_empty]) initial)
  <> [chunk_a; chunk_empty].
Proof.
  vm_compute. discriminate.
Qed.

(* ===================================================================== *)
(** * Playback and the redirect (landing page) *)
(* ===================================================================== *)

(** C8. On the landing page, when the reply has an [audio_url] and asks for
    a redirect, and playback is refused, [sendToBackend] navigates to
    [redirect_url] exactly once, shows no alert, and leaves no [onended]
    handler behind that could navigate again; the refusal is logged as a
    warning. *)
Theorem C8_blocked_playback_still_redirects (h : Home.World) (status : N)
  (data : Raw.AgentResponse) (a url : jsstring) (e : Error) :
  ok status = true ->
  Raw.audio_url data = Some a ->
  Raw.redirect data = Some true ->
  Raw.redirect_url data = Some url ->
  str_truthy url = true ->
  let h' := run (Home.sendToBackend (Response status (Json data)) (Rejected e)) h in
  navigations (Home.trace h') = url :: navigations (Home.trace h) /\
  alerts (Home.trace h') = alerts (Home.trace h) /\
  Home.onended h' = Home.onended h /\
  (str_truthy a = true ->
   Home.trace h' =
     Navigate url
     :: ConsoleWarn (u "⚠️ Audio play blocked:") e
     :: Play (backend ++ a)
     :: ConsoleLog (u "Backend response:") data
     :: Home.request h :: Home.trace h).
Proof.
  intros Hok Ha Hr Hu Tu h'. subst h'. unfold run.
  rewrite HomeFacts.sendToBackend_success by exact Hok.
  cbn [snd Home.trace Home.onended].
  unfold Home.playEvents, Home.playHandlers, Home.redirectEvents.
  rewrite Ha, Hr, Hu, Tu.
  destruct (str_truthy a); repeat split; discriminate.
Qed.

Lemma C8_blocked_playback_still_redirects_witness :
  navigations
    (Home.trace
       (run (Home.sendToBackend (Response 200 (Json Home.reply_redirect))
               (Rejected Home.NotAllowedError)) Home.initial))
  = [u "/irrigation"].
Proof.
  exact (proj1 (@C8_blocked_playback_still_redirects Home.initial 200
                  Home.reply_redirect (u "/audio/reply.mp3") (u "/irrigation")
                  Home.NotAllowedError eq_refl eq_refl eq_refl eq_refl eq_refl)).
Defined.

(* ===================================================================== *)
(** * Further facts about the helpers *)
(* ===================================================================== *)

Module JsFacts.

Lemma trim_start_nil (s : jsstring) :
  trim_start s = [] <-> blank s = true.
Proof.
  unfold blank. induction s as [|c s IH]; cbn; [tauto|].
  destruct (is_space c); cbn; [exact IH|]. split; discriminate.
Qed.

Lemma trim_start_keeps (s : jsstring) :
  blank s = false -> blank (trim_start s) = false.
Proof.
  unfold blank. induction s as [|c s IH]; cbn; [discriminate|].
  destruct (is_space c) eqn:Hc; cbn; [exact IH|]. now rewrite Hc.
Qed.

Lemma blank_rev (s : jsstring) : blank (rev s) = blank s.
Proof.
  unfold blank. induction s as [|c s IH]; [reflexivity|].
  cbn. rewrite forallb_app, IH. cbn. rewrite andb_true_r. apply andb_comm.
Qed.

(** Trimming leaves nothing exactly when there was only white space. *)
Lemma trim_nil (s : jsstring) : trim s = [] <-> blank s = true.
Proof.
  unfold trim. split.
  - intros H. destruct (blank s) eqn:Hb; [reflexivity|exfalso].
    apply trim_start_keeps in Hb. rewrite <- blank_rev in Hb.
    apply trim_start_keeps in Hb.
    destruct (trim_start (rev (trim_start s))) as [|y l]; [discriminate|].
    cbn in H. now destruct (rev l).
  - intros H. apply trim_start_nil in H. now rewrite H.
Qed.

Lemma str_truthy_trim (s : jsstring) : str_truthy (trim s) = negb (blank s).
Proof.
  destruct (blank s) eqn:Hb.
  - apply trim_nil in Hb. now rewrite Hb.
  - destruct (trim s) eqn:Ht; [|reflexivity].
    apply trim_nil in Ht. congruence.
Qed.

Lemma str_eqb_nil (s : jsstring) : str_eqb s [] = negb (str_truthy s).
Proof. now destruct s. Qed.

Lemma uint_codes_inj (a b : Decimal.uint) :
  uint_codes a = uint_codes b -> a = b.
Proof.
  revert b. induction a; destruct b; cbn; intros H;
    try discriminate; try reflexivity;
    inversion H; f_equal; now apply IHa.
Qed.

(** Different numbers print differently. *)
Lemma decimal_inj (m n : N) : decimal m = decimal n -> m = n.
Proof.
  assert (Hd : forall k, decimal k = uint_codes (N.to_uint k)).
  { intros [|k]; reflexivity. }
  rewrite !Hd. intros H. apply uint_codes_inj in H.
  rewrite <- (DecimalN.Unsigned.of_to m), <- (DecimalN.Unsigned.of_to n).
  now rewrite H.
Qed.

End JsFacts.

Module RegExpMore.
Import RegExp.

Section Repeat.
Variable c : cclass.
Variable least : nat.
Variable k : jsstring -> option (list jsstring * jsstring).

(** Whatever a lazy group returns, it took a run of the class and the rest
    of the pattern accepted what followed. *)
Lemma lazy_inv (s taken : jsstring) caps rest :
  lazy_ c least k taken s = Some (caps, rest) ->
  exists run s' caps',
    s = run ++ s' /\ Forall (fun x => in_class c x = true) run /\
    (least <= length (taken ++ run))%nat /\
    k s' = Some (caps', rest) /\ caps = (taken ++ run) :: caps'.
Proof.
  revert taken. induction s as [|x s IH]; intros taken H; cbn in H.
  - destruct (close least k taken []) as [r|] eqn:Hc; [|discriminate].
    inversion H; subst r. unfold close in Hc.
    destruct (Nat.leb_spec least (length taken)) as [Hl|]; [|discriminate].
    destruct (k []) as [[caps' rest']|] eqn:Hk; [|discriminate].
    inversion Hc; subst. exists [], [], caps'.
    rewrite !app_nil_r. repeat split; auto.
  - destruct (close least k taken (x :: s)) as [r|] eqn:Hc.
    + inversion H; subst r. unfold close in Hc.
      destruct (Nat.leb_spec least (length taken)) as [Hl|]; [|discriminate].
      destruct (k (x :: s)) as [[caps' rest']|] eqn:Hk; [|discriminate].
      inversion Hc; subst. exists [], (x :: s), caps'.
      rewrite app_nil_r. repeat split; auto.
    + destruct (in_class c x) eqn:Hx; [|discriminate].
      destruct (IH _ H) as (run & s' & caps' & -> & Hrun & Hlen & Hk & ->).
      exists (x :: run), s', caps'.
      rewrite <- app_assoc in *. cbn in *. repeat split; auto.
Qed.
End Repeat.

(** A match of [exec] starts somewhere in the text, and nowhere before. *)
Lemma exec_inv (re : regexp) (s : jsstring) (m : list jsstring) :
  exec re s = Some m ->
  exists p s1 caps rest,
    s = p ++ s1 /\ match_here re s1 = Some (caps, rest) /\
    m = firstn (length s1 - length rest) s1 :: caps.
Proof.
  induction s as [|x s IH]; cbn [exec]; intros H.
  - destruct (match_here re []) as [[caps rest]|] eqn:Hm; [|discriminate].
    inversion H; subst. now exists [], [], caps, rest.
  - destruct (match_here re (x :: s)) as [[caps rest]|] eqn:Hm.
    + inversion H; subst. now exists [], (x :: s), caps, rest.
    + destruct (IH H) as (p & s1 & caps & rest & -> & Hm1 & ->).
      now exists (x :: p), s1, caps, rest.
Qed.

(** [exec] finds nothing exactly when the pattern matches at no position. *)
Lemma exec_none (re : regexp) (s : jsstring) :
  exec re s = None <->
  (forall p s1, s = p ++ s1 -> match_here re s1 = None).
Proof.
  split.
  - induction s as [|x s IH]; cbn [exec]; intros H p s1 Heq.
    + destruct p, s1; try discriminate.
      now destruct (match_here re []) as [[? ?]|].
    + destruct (match_here re (x :: s)) as [[? ?]|] eqn:Hm; [discriminate|].
      destruct p as [|y p]; cbn in Heq.
      * now subst s1.
      * inversion Heq; subst. now apply (IH H p s1).
  - intros H. induction s as [|x s IH]; cbn [exec].
    + now rewrite (H [] []).
    + rewrite (H [] (x :: s) eq_refl). apply IH.
      intros p s1 ->. now apply (H (x :: p) s1).
Qed.

End RegExpMore.

(* ===================================================================== *)
(** * Further facts about the irrigation page *)
(* ===================================================================== *)

Module IrrigationMore.
Import IrrigationFacts.

(** Every failed request ends the same way: the cleared display, the error
    logged, the alert. *)
Lemma fetchAgent_failed (w : World) (net : FetchOutcome) (play : PlayOutcome)
  (fd : FormData) (err : Error) :
  failure_error net = Some err ->
  fetchAgent net play fd w =
  (Normal tt,
   {| query := query w; agentText := []; loading := false;
      recording := recording w; weather := None; soil := None;
      mediaRecorderRef := mediaRecorderRef w;
      audioChunksRef := audioChunksRef w; audioRef := audioRef w;
      recorders := recorders w;
      trace :=
        Alert (u "Failed to fetch advice. Try again.")
        :: ConsoleError (u "Error:") err
        :: Fetch (backend ++ u "/agent") fd :: trace w |}).
Proof.
  destruct net as [e|status body]; cbn [failure_error].
  - intros H. inversion H; subst. reflexivity.
  - destruct (ok status) eqn:Hok.
    + destruct body as [e|data]; [|discriminate].
      intros H. inversion H; subst.
      unfold fetchAgent, try_catch_finally, try_catch, fetch, json, when, bind.
      handler_cbn. rewrite Hok. reflexivity.
    + intros H. inversion H; subst. now apply fetchAgent_refused.
Qed.

Lemma failure_or_success (net : FetchOutcome) :
  (exists err, failure_error net = Some err /\ succeeded net = false) \/
  (exists status data,
      net = Response status (Json data) /\ ok status = true /\
      succeeded net = true).
Proof.
  destruct net as [e|status [e|data]]; cbn.
  - left. now exists e.
  - left. destruct (ok status); eexists; split; reflexivity.
  - destruct (ok status) eqn:Hok.
    + right. now exists status, data.
    + left. eexists; split; reflexivity.
Qed.

(** What a successful reply leaves in the whole world, field by field. *)
Lemma fetchAgent_done (w : World) (fd : FormData) (play : PlayOutcome)
  (status : N) (data : Raw.AgentResponse) :
  ok status = true ->
  let w' := run (fetchAgent (Response status (Json data)) play fd) w in
  query w' = query w /\ loading w' = false /\ recording w' = recording w /\
  mediaRecorderRef w' = mediaRecorderRef w /\
  audioChunksRef w' = audioChunksRef w /\ recorders w' = recorders w /\
  agentText w' = or_else str_truthy (Raw.message data) [] /\
  audioRef w' = (if has_audio data
                 then option_map (app backend) (Raw.audio_url data)
                 else audioRef w).
Proof.
  intros Hok w'. subst w'. unfold run at 1 2 3 4 5 6 7 8.
  rewrite fetchAgent_success by exact Hok.
  unfold run. rewrite playReply_eq, showSoil_eq, showWeather_eq.
  handler_cbn. unfold run, has_audio.
  destruct (Raw.soil data), (Raw.weather data), (Raw.message data) as [msg|],
    (Raw.audio_url data) as [a|];
    try (destruct (str_truthy a));
    try (repeat split; reflexivity);
    destruct (RegExp.exec soilRe msg), (RegExp.exec weatherRe msg),
      (str_truthy msg); repeat split; reflexivity.
Qed.

Lemma posts_nil (evs : list event) : requests evs = [] -> posts evs = [].
Proof.
  induction evs as [|e evs IH]; [reflexivity|].
  destruct e; cbn; try exact IH. discriminate.
Qed.

Lemma alerts_playEvents (data : Raw.AgentResponse) (play : PlayOutcome) :
  alerts (playEvents data play) = [].
Proof.
  unfold playEvents. destruct (Raw.audio_url data) as [a|]; [|reflexivity].
  destruct (str_truthy a); [|reflexivity]. destruct play; reflexivity.
Qed.

(** ** The soil and weather patterns *)

Lemma weatherRe_here_inv (s : jsstring) caps rest :
  RegExp.match_here weatherRe s = Some (caps, rest) ->
  exists loc cond t,
    s = u "Weather in " ++ loc ++ u " is " ++ cond
        ++ u " with temperature " ++ t ++ u "°C" ++ rest /\
    caps = [loc; cond; t] /\
    Forall (fun x => RegExp.in_class RegExp.Dot x = true) loc /\
    Forall (fun x => RegExp.in_class RegExp.Dot x = true) cond /\
    Forall (fun x => RegExp.in_class RegExp.DigitDot x = true) t /\
    t <> [].
Proof.
  unfold weatherRe. cbn [RegExp.match_here]. intros H.
  destruct (RegExp.strip_prefix (u "Weather in ") s) as [s1|] eqn:H1;
    [|discriminate].
  apply RegExpFacts.strip_prefix_inv in H1. subst s.
  apply RegExpMore.lazy_inv in H.
  destruct H as (loc & s2 & caps2 & -> & Hloc & _ & Hk & ->).
  cbn [RegExp.match_here] in Hk.
  destruct (RegExp.strip_prefix (u " is ") s2) as [s3|] eqn:H3; [|discriminate].
  apply RegExpFacts.strip_prefix_inv in H3. subst s2.
  apply RegExpFacts.greedy_inv in Hk.
  destruct Hk as (cond & s4 & caps4 & -> & Hcond & _ & Hk & ->).
  cbn [RegExp.match_here] in Hk.
  destruct (RegExp.strip_prefix (u " with temperature ") s4) as [s5|] eqn:H5;
    [|discriminate].
  apply RegExpFacts.strip_prefix_inv in H5. subst s4.
  apply RegExpFacts.greedy_inv in Hk.
  destruct Hk as (t & s6 & caps6 & -> & Ht & Hlen & Hk & ->).
  cbn [RegExp.match_here] in Hk.
  destruct (RegExp.strip_prefix (u "°C") s6) as [s7|] eqn:H7; [|discriminate].
  apply RegExpFacts.strip_prefix_inv in H7. subst s6.
  inversion Hk; subst. exists loc, cond, t. cbn [app] in *.
  repeat split; auto.
  destruct t; [cbn in Hlen; lia|discriminate].
Qed.

(** ** A session with the question box edited on the way *)

Lemma typed_session_eq (strict : bool) (w : World) (chunks1 : list Blob)
  (q' : jsstring) (chunks2 : list Blob) (last : Blob)
  (net : FetchOutcome) (play : PlayOutcome) :
  typed_session strict chunks1 q' chunks2 last net play w =
  fetchAgent net play
    (voiceForm (query w) (filter has_data (chunks1 ++ chunks2 ++ [last])))
    (run (setQuery q') (at_submission w (chunks1 ++ chunks2 ++ [last]))).
Proof.
  unfold typed_session. unfold bind at 1. cbn [get].
  unfold bind at 1. rewrite startRecording_granted.
  unfold bind at 1.
  rewrite (@deliver_all_eq (length (recorders w))
             (MediaRecorder.start (MediaRecorder.create (query w))));
    [|apply MediaRecorderFacts.nth_error_last|reflexivity].
  handler_cbn. unfold bind at 1. cbn [setQuery modify]. handler_cbn.
  unfold bind at 1.
  rewrite (@deliver_all_eq (length (recorders w))
             (MediaRecorder.start (MediaRecorder.create (query w))));
    [|apply MediaRecorderFacts.nth_error_last|reflexivity].
  handler_cbn. unfold bind at 1.
  rewrite (@stopRecording_eq strict _ (length (recorders w))
             (MediaRecorder.start (MediaRecorder.create (query w))));
    [|reflexivity|apply MediaRecorderFacts.nth_error_last|reflexivity].
  handler_cbn. rewrite MediaRecorderFacts.update_last.
  unfold deliver_stop, bind at 1. cbn [get recorders].
  rewrite MediaRecorderFacts.nth_error_last.
  cbn [MediaRecorder.stop MediaRecorder.start MediaRecorder.create
       MediaRecorder.state MediaRecorder.stop_task MediaRecorder.closure].
  unfold bind at 1. rewrite ondataavailable_eq.
  unfold bind at 1. handler_cbn.
  unfold bind at 1. handler_cbn.
  rewrite MediaRecorderFacts.update_last.
  unfold onstop, bind at 1. handler_cbn.
  unfold at_submission, voiceForm, run. cbn [setQuery modify snd].
  handler_cbn.
  rewrite !filter_has_data_app, <- !app_assoc. reflexivity.
Qed.

End IrrigationMore.

(* ===================================================================== *)
(** * Further facts about the landing page *)
(* ===================================================================== *)

Module HomeMore.
Import Home HomeFacts.

Lemma sendToBackend_failed (w : World) (net : FetchOutcome)
  (play : PlayOutcome) (err : Error) :
  failure_error net = Some err ->
  sendToBackend net play w =
  (Normal tt,
   {| agentText := agentText w; recording := recording w; loading := false;
      mediaRecorderRef := mediaRecorderRef w;
      audioChunksRef := audioChunksRef w; recorders := recorders w;
      onended := onended w;
      trace :=
        Alert (u "Failed to process audio. Please try again.")
        :: ConsoleError (u "❌ Error sending audio:") err
        :: request w :: trace w |}).
Proof.
  destruct net as [e|status body]; cbn [failure_error].
  - intros H. inversion H; subst. reflexivity.
  - destruct (ok status) eqn:Hok.
    + destruct body as [e|data]; [|discriminate].
      intros H. inversion H; subst.
      unfold sendToBackend, try_catch_finally, try_catch, fetch, json, when,
        bind.
      home_cbn. rewrite Hok. reflexivity.
    + intros H. inversion H; subst. now apply sendToBackend_refused.
Qed.

Lemma redirectEvents_asked (data : Raw.AgentResponse) :
  redirectEvents data =
  match asked data with Some url => [Navigate url] | None => [] end.
Proof.
  unfold redirectEvents, asked.
  destruct (Raw.redirect data) as [[|]|], (Raw.redirect_url data) as [url|];
    try reflexivity.
  now destruct (str_truthy url).
Qed.

(** The events of the audio branch, by what the reply holds and how playback
    went. *)
Lemma playEvents_cases (data : Raw.AgentResponse) (play : PlayOutcome) :
  playEvents data play =
  if has_audio data
  then match play with
       | Started => [Play (backend ++ or_else str_truthy (Raw.audio_url data) [])]
       | Rejected e =>
           match asked data with Some url => [Navigate url] | None => [] end
           ++ [ConsoleWarn (u "⚠️ Audio play blocked:") e;
               Play (backend ++ or_else str_truthy (Raw.audio_url data) [])]
       end
  else match asked data with Some url => [Navigate url] | None => [] end.
Proof.
  unfold playEvents, has_audio. rewrite redirectEvents_asked.
  destruct (Raw.audio_url data) as [a|]; [|reflexivity]. cbn [or_else].
  destruct (str_truthy a); [|reflexivity]. now destruct play.
Qed.

Lemma home_alerts_playEvents (data : Raw.AgentResponse) (play : PlayOutcome) :
  alerts (playEvents data play) = [].
Proof.
  rewrite playEvents_cases.
  destruct (has_audio data), play, (asked data); reflexivity.
Qed.

End HomeMore.

(* ===================================================================== *)
(** * Submitting a question (irrigation page) *)
(* ===================================================================== *)

(** X1. [handleSubmit] with nothing but white space in the question box shows
    the alert and does nothing else: no request, the display not cleared.
    With anything else in the box it is [fetchAgent] on a form whose only
    part is [question], carrying the text as typed, not trimmed. *)
Theorem handleSubmit_blank_or_sent (w : World) (net : FetchOutcome)
  (play : PlayOutcome) :
  handleSubmit net play w =
  if blank (query w)
  then (Normal tt,
        {| query := query w; agentText := agentText w; loading := loading w;
           recording := recording w; weather := weather w; soil := soil w;
           mediaRecorderRef := mediaRecorderRef w;
           audioChunksRef := audioChunksRef w; audioRef := audioRef w;
           recorders := recorders w;
           trace := Alert (u "Please enter your question or location")
                    :: trace w |})
  else fetchAgent net play [(u "question", Text (query w))] w.
Proof.
  unfold handleSubmit, bind. cbn [get].
  rewrite JsFacts.str_truthy_trim, negb_involutive.
  now destruct (blank (query w)).
Qed.

(** X2. [onstop] posts the buffered chunks as one [audio/webm] blob named
    [voice.webm] in the part [audio], followed by the part [question] exactly
    when the captured text has something other than white space in it; the
    text goes out as typed. *)
Theorem onstop_form (q : jsstring) (w : World) (net : FetchOutcome)
  (play : PlayOutcome) :
  onstop q net play w =
  fetchAgent net play
    ((u "audio",
      File (new_Blob (audioChunksRef w) (u "audio/webm")) (u "voice.webm"))
     :: (if blank q then [] else [(u "question", Text q)]))
    w.
Proof.
  unfold onstop, bind. cbn [get].
  rewrite JsFacts.str_eqb_nil, JsFacts.str_truthy_trim, !negb_involutive.
  now destruct (blank q).
Qed.

(** X3. The question a voice request carries is the one that was in the box
    when Start was clicked: text typed while recording is kept in the box but
    is not what the session posts. The session makes one request, with every
    chunk that carried data, before and after the edit, in arrival order. *)
Theorem typed_session_posts_question_at_start (strict : bool) (w : World)
  (chunks1 : list Blob) (q' : jsstring) (chunks2 : list Blob) (last : Blob)
  (net : FetchOutcome) (play : PlayOutcome) :
  let w' := run (typed_session strict chunks1 q' chunks2 last net play) w in
  posts (trace w') =
    (backend ++ u "/agent",
     voiceForm (query w) (filter has_data (chunks1 ++ chunks2 ++ [last])))
    :: posts (trace w) /\
  query w' = q'.
Proof.
  intros w'. subst w'.
  set (fd := voiceForm (query w) (filter has_data (chunks1 ++ chunks2 ++ [last]))).
  set (w1 := run (setQuery q') (at_submission w (chunks1 ++ chunks2 ++ [last]))).
  assert (E : run (typed_session strict chunks1 q' chunks2 last net play) w
              = run (fetchAgent net play fd) w1).
  { unfold run. now rewrite IrrigationMore.typed_session_eq. }
  rewrite E. clear E. split.
  - destruct (IrrigationFacts.fetchAgent_trace w1 net play fd)
      as (evs & -> & Hevs).
    unfold posts at 1. rewrite flat_map_app. fold (posts evs).
    now rewrite (IrrigationMore.posts_nil _ Hevs).
  - destruct (IrrigationMore.failure_or_success net)
      as [(err & Herr & _) | (status & data & -> & Hok & _)].
    + unfold run.
      now rewrite (@IrrigationMore.fetchAgent_failed w1 net play fd err Herr).
    + now destruct (@IrrigationMore.fetchAgent_done w1 fd play status data Hok)
        as (-> & _).
Qed.

(* ===================================================================== *)
(** * Every submission, on both pages *)
(* ===================================================================== *)

(** X4. A submission makes exactly one request, a POST of its form to
    [/agent] on the backend, whatever the network answers and however
    playback goes: nothing is retried. On the landing page the form is the
    single part [audio], the buffered chunks as [customer_audio.webm]. *)
Theorem one_request_per_submission (w : World) (h : Home.World)
  (net : FetchOutcome) (play : PlayOutcome) (fd : FormData) :
  posts (trace (run (fetchAgent net play fd) w))
  = (backend ++ u "/agent", fd) :: posts (trace w) /\
  posts (Home.trace (run (Home.sendToBackend net play) h))
  = (backend ++ u "/agent",
     [(u "audio",
       File (new_Blob (Home.audioChunksRef h) (u "audio/webm"))
         (u "customer_audio.webm"))])
    :: posts (Home.trace h).
Proof.
  split.
  - destruct (IrrigationFacts.fetchAgent_trace w net play fd)
      as (evs & -> & Hevs).
    unfold posts at 1. rewrite flat_map_app. fold (posts evs).
    now rewrite (IrrigationMore.posts_nil _ Hevs).
  - destruct (HomeFacts.sendToBackend_trace h net play) as (evs & -> & Hevs).
    unfold posts at 1. rewrite flat_map_app. fold (posts evs).
    now rewrite (IrrigationMore.posts_nil _ Hevs).
Qed.

(** X5. When the request fails (network error, status outside 200-299, body
    that is not JSON) the user sees the failure alert, once. When a reply
    with a status in 200-299 and a body of the declared shape arrives, no
    alert is shown, playback refused or not. *)
Theorem alert_after_failure (w : World) (h : Home.World)
  (net : FetchOutcome) (play : PlayOutcome) (fd : FormData) :
  let w' := run (fetchAgent net play fd) w in
  let h' := run (Home.sendToBackend net play) h in
  (forall err,
      failure_error net = Some err ->
      alerts (trace w')
      = u "Failed to fetch advice. Try again." :: alerts (trace w) /\
      alerts (Home.trace h')
      = u "Failed to process audio. Please try again."
        :: alerts (Home.trace h)) /\
  (forall status data,
      net = Response status (Json data) -> ok status = true ->
      alerts (trace w') = alerts (trace w) /\
      alerts (Home.trace h') = alerts (Home.trace h)).
Proof.
  intros w' h'. subst w' h'. split.
  - intros err Herr. unfold run.
    rewrite (@IrrigationMore.fetchAgent_failed w net play fd err Herr).
    rewrite (@HomeMore.sendToBackend_failed h net play err Herr).
    split; reflexivity.
  - intros status data -> Hok. split.
    + rewrite IrrigationFacts.trace_success by exact Hok.
      unfold alerts at 1. rewrite flat_map_app.
      fold (alerts (playEvents data play)).
      now rewrite IrrigationMore.alerts_playEvents.
    + unfold run. rewrite HomeFacts.sendToBackend_success by exact Hok.
      cbn [snd Home.trace]. unfold alerts at 1. rewrite flat_map_app.
      fold (alerts (Home.playEvents data play)).
      now rewrite HomeMore.home_alerts_playEvents.
Qed.

Lemma alert_after_failure_witness :
  alerts
    (trace (run (fetchAgent (Response 200 (NotJson Home.NotAllowedError))
                   Started []) initial))
  = [u "Failed to fetch advice. Try again."] /\
  alerts
    (Home.trace
       (run (Home.sendToBackend (Response 200 (Json Home.reply_redirect))
               (Rejected Home.NotAllowedError)) Home.initial))
  = [].
Proof.
  split.
  - exact (proj1 (proj1 (@alert_after_failure initial Home.initial
                           (Response 200 (NotJson Home.NotAllowedError))
                           Started [])
                    Home.NotAllowedError eq_refl)).
  - exact (proj2 (proj2 (@alert_after_failure initial Home.initial
                           (Response 200 (Json Home.reply_redirect))
                           (Rejected Home.NotAllowedError) [])
                    200%N Home.reply_redirect eq_refl eq_refl)).
Defined.

(** X6. After a submission, however it went, [loading] is false again and
    the recording side of the page is as it was: the recording flag, the
    recorder in [mediaRecorderRef], the recorders and the chunk buffer (which
    a submission does not empty), and on the irrigation page the question
    box. *)
Theorem submission_frame (w : World) (h : Home.World)
  (net : FetchOutcome) (play : PlayOutcome) (fd : FormData) :
  let w' := run (fetchAgent net play fd) w in
  let h' := run (Home.sendToBackend net play) h in
  loading w' = false /\
  (query w', recording w', mediaRecorderRef w', audioChunksRef w', recorders w')
  = (query w, recording w, mediaRecorderRef w, audioChunksRef w, recorders w) /\
  Home.loading h' = false /\
  (Home.recording h', Home.mediaRecorderRef h', Home.audioChunksRef h',
   Home.recorders h')
  = (Home.recording h, Home.mediaRecorderRef h, Home.audioChunksRef h,
     Home.recorders h).
Proof.
  intros w' h'. subst w' h'.
  destruct (IrrigationMore.failure_or_success net)
    as [(err & Herr & _) | (status & data & -> & Hok & _)].
  - unfold run.
    rewrite (@IrrigationMore.fetchAgent_failed w net play fd err Herr).
    rewrite (@HomeMore.sendToBackend_failed h net play err Herr).
    repeat split.
  - destruct (@IrrigationMore.fetchAgent_done w fd play status data Hok)
      as (-> & -> & -> & -> & -> & -> & _).
    unfold run. rewrite HomeFacts.sendToBackend_success by exact Hok.
    repeat split.
Qed.

(** X7. A failed request of any kind leaves the irrigation page with the
    display cleared (empty message, no weather, no soil) and the landing page
    with its message as it was; each logs the error it failed with after the
    request and then alerts, and starts no playback. *)
Theorem failed_submission (w : World) (h : Home.World)
  (net : FetchOutcome) (play : PlayOutcome) (fd : FormData) (err : Error) :
  failure_error net = Some err ->
  let w' := run (fetchAgent net play fd) w in
  let h' := run (Home.sendToBackend net play) h in
  (agentText w', weather w', soil w', audioRef w') = ([], None, None, audioRef w) /\
  trace w' =
    Alert (u "Failed to fetch advice. Try again.")
    :: ConsoleError (u "Error:") err
    :: Fetch (backend ++ u "/agent") fd :: trace w /\
  (Home.agentText h', Home.onended h') = (Home.agentText h, Home.onended h) /\
  Home.trace h' =
    Alert (u "Failed to process audio. Please try again.")
    :: ConsoleError (u "❌ Error sending audio:") err
    :: Home.request h :: Home.trace h.
Proof.
  intros Herr w' h'. subst w' h'. unfold run.
  rewrite (@IrrigationMore.fetchAgent_failed w net play fd err Herr).
  rewrite (@HomeMore.sendToBackend_failed h net play err Herr).
  repeat split.
Qed.

Lemma failed_submission_witness :
  agentText
    (run (fetchAgent (NetworkFailure Home.NotAllowedError) Started []) showing_old)
  = [] /\
  Home.agentText
    (run (Home.sendToBackend (Response 200 (NotJson Home.NotAllowedError)) Started)
       Home.after_session)
  = u "Opening the advice page.".
Proof.
  split.
  - exact (f_equal (fun t => fst (fst (fst t)))
             (proj1 (@failed_submission showing_old Home.initial
                       (NetworkFailure Home.NotAllowedError) Started []
                       Home.NotAllowedError eq_refl))).
  - exact (f_equal fst
             (proj1 (proj2 (proj2
                (@failed_submission initial Home.after_session
                   (Response 200 (NotJson Home.NotAllowedError)) Started []
                   Home.NotAllowedError eq_refl))))).
Defined.

(** X8. On the irrigation page a refused playback changes nothing the user
    sees: message, weather, soil, [loading] and the Audio element are the
    same as when playback starts, and the only trace of the refusal is one
    console warning (when the reply has audio at all). *)
Theorem blocked_autoplay_keeps_display (w : World) (fd : FormData)
  (status : N) (data : Raw.AgentResponse) (e : Error) :
  ok status = true ->
  let ws := run (fetchAgent (Response status (Json data)) Started fd) w in
  let wr := run (fetchAgent (Response status (Json data)) (Rejected e) fd) w in
  (agentText wr, weather wr, soil wr, loading wr, audioRef wr)
  = (agentText ws, weather ws, soil ws, loading ws, audioRef ws) /\
  trace wr =
    (if has_audio data then [ConsoleWarn (u "Audio autoplay blocked:") e] else [])
    ++ trace ws.
Proof.
  intros Hok ws wr. subst ws wr. unfold run.
  rewrite !IrrigationFacts.fetchAgent_success by exact Hok.
  unfold run.
  rewrite !IrrigationFacts.playReply_eq, !IrrigationFacts.showSoil_eq,
    !IrrigationFacts.showWeather_eq.
  cbn [snd agentText weather soil loading audioRef trace Irrigation.setLoading
       modify].
  split; [reflexivity|].
  unfold playEvents, has_audio.
  destruct (Raw.audio_url data) as [a|]; [|reflexivity].
  destruct (str_truthy a); reflexivity.
Qed.

Lemma blocked_autoplay_keeps_display_witness :
  trace (run (fetchAgent (Response 200 (Json Home.reply_redirect))
                (Rejected Home.NotAllowedError) []) initial)
  = ConsoleWarn (u "Audio autoplay blocked:") Home.NotAllowedError
    :: trace (run (fetchAgent (Response 200 (Json Home.reply_redirect))
                     Started []) initial).
Proof.
  exact (proj2 (@blocked_autoplay_keeps_display initial [] 200
                  Home.reply_redirect Home.NotAllowedError eq_refl)).
Defined.

(* ===================================================================== *)
(** * Soil and weather on display *)
(* ===================================================================== *)

(** X9. With a structured [soil] object every field of the displayed soil is
    filled: each one is the object's value when that value is present and
    truthy, and otherwise its default, [0] for moisture, [7] for ph (so a ph
    of zero is displayed as 7) and ["medium"] for the three levels, each
    field on its own. *)
Theorem soil_subfields (w : World) (fd : FormData) (play : PlayOutcome)
  (status : N) (data : Raw.AgentResponse) (o : Raw.Soil) :
  ok status = true ->
  Raw.soil data = Some o ->
  exists v,
    soil (run (fetchAgent (Response status (Json data)) play fd) w) = Some v /\
    moisture v
    = match Raw.moisture o with
      | Some m => if num_truthy m then m else 0%float
      | None => 0%float
      end /\
    ph v
    = Some match Raw.ph o with
           | Some a => if num_truthy a then a else 7%float
           | None => 7%float
           end /\
    (forall level raw,
        (level, raw) = (nitrogen v, Raw.nitrogen o) \/
        (level, raw) = (phosphorus v, Raw.phosphorus o) \/
        (level, raw) = (potassium v, Raw.potassium o) ->
        level = Some match raw with
                     | Some (c :: l) => c :: l
                     | Some [] | None => u "medium"
                     end).
Proof.
  intros Hok Ho. exists (soilOfObject o).
  rewrite IrrigationFacts.shown_soil by exact Hok. rewrite Ho.
  split; [reflexivity|]. split; [reflexivity|]. split; [reflexivity|].
  intros level raw [H | [H | H]]; inversion H; subst; cbn;
    unfold or_else;
    match goal with |- context [match ?x with _ => _ end] => destruct x as [[|? ?]|] end;
    reflexivity.
Qed.

Lemma soil_subfields_witness :
  exists v,
    soil (run (fetchAgent (Response 200 (Json reply_both)) Started []) initial)
    = Some v /\
    ph v = Some 6.5%float /\ nitrogen v = Some (u "high").
Proof.
  destruct (@soil_subfields initial [] Started 200 reply_both soil_wet
              eq_refl eq_refl) as (v & Hv & _ & Hp & Hl).
  exists v. split; [exact Hv|]. split; [exact Hp|].
  exact (Hl _ _ (or_introl eq_refl)).
Defined.

(** X10. With no [soil] object, no soil is displayed exactly when the message
    (if there is one) reads [soil moisture <digits>%] nowhere; the pattern is
    case-sensitive and needs at least one digit. *)
Theorem soil_absent_iff (w : World) (fd : FormData) (play : PlayOutcome)
  (status : N) (data : Raw.AgentResponse) :
  ok status = true ->
  Raw.soil data = None ->
  soil (run (fetchAgent (Response status (Json data)) play fd) w) = None <->
  (forall p ds r,
      Raw.message data = Some (p ++ u "soil moisture " ++ ds ++ u "%" ++ r) ->
      digits ds = false).
Proof.
  intros Hok Hs.
  rewrite IrrigationFacts.shown_soil by exact Hok. rewrite Hs.
  destruct (Raw.message data) as [msg|]; [|split; [discriminate|reflexivity]].
  destruct (RegExp.exec soilRe msg) as [m|] eqn:He.
  - destruct (RegExpMore.exec_inv _ _ He)
      as (p & s1 & caps & rest & -> & Hm & _).
    destruct (IrrigationFacts.soilRe_here_inv _ Hm) as (ds & -> & _ & Hd).
    assert (Ht : str_truthy (p ++ u "soil moisture " ++ ds ++ u "%" ++ rest)
                 = true) by (now destruct p).
    rewrite Ht. split; [discriminate|].
    intros H. specialize (H p ds rest eq_refl). congruence.
  - split; [|reflexivity]. intros _ p ds r Heq.
    assert (Hmsg : msg = p ++ u "soil moisture " ++ ds ++ u "%" ++ r)
      by congruence.
    destruct (digits ds) eqn:Hd; [|reflexivity].
    pose proof (proj1 (RegExpMore.exec_none _ _) He p _ Hmsg) as Hn.
    rewrite (IrrigationFacts.soilRe_here _ r Hd) in Hn. discriminate.
Qed.

Lemma soil_absent_iff_witness :
  soil (run (fetchAgent (Response 200 (Json (reply_of_message (u "soil moisture 4 %"))))
               Started []) initial)
  = None <->
  (forall p ds r,
      Some (u "soil moisture 4 %")
      = Some (p ++ u "soil moisture " ++ ds ++ u "%" ++ r) ->
      digits ds = false).
Proof.
  exact (@soil_absent_iff initial [] Started 200
           (reply_of_message (u "soil moisture 4 %")) eq_refl eq_refl).
Defined.

(** X11. With no [weather] object, a weather is displayed only if the message
    reads [Weather in <location> is <condition> with temperature <t>°C]
    somewhere, with the displayed location and condition in those places
    (neither holding a line break) and the temperature the text [t] itself, a
    non-empty run of digits and full stops, kept as a string. *)
Theorem weather_from_text_sound (w : World) (fd : FormData)
  (play : PlayOutcome) (status : N) (data : Raw.AgentResponse) (v : Weather) :
  ok status = true ->
  Raw.weather data = None ->
  weather (run (fetchAgent (Response status (Json data)) play fd) w) = Some v ->
  exists p t r,
    Raw.message data =
      Some (p ++ u "Weather in " ++ location v ++ u " is " ++ condition v
            ++ u " with temperature " ++ t ++ u "°C" ++ r) /\
    temp_c v = OfString t /\ t <> [] /\
    Forall (fun c => RegExp.in_class RegExp.DigitDot c = true) t /\
    Forall (fun c => RegExp.in_class RegExp.Dot c = true) (location v) /\
    Forall (fun c => RegExp.in_class RegExp.Dot c = true) (condition v).
Proof.
  intros Hok Hw.
  rewrite IrrigationFacts.shown_weather by exact Hok. rewrite Hw.
  destruct (Raw.message data) as [msg|]; [|discriminate].
  destruct (RegExp.exec weatherRe msg) as [m|] eqn:He; [|discriminate].
  destruct (str_truthy msg); [|discriminate].
  intros H. inversion H; subst v. clear H.
  destruct (RegExpMore.exec_inv _ _ He) as (p & s1 & caps & rest & -> & Hm & ->).
  destruct (IrrigationMore.weatherRe_here_inv _ Hm)
    as (loc & cond & t & -> & -> & Hloc & Hcond & Ht & Hne).
  exists p, t, rest. cbn [weatherOfMatch RegExp.at_ nth location condition temp_c].
  repeat split; auto.
Qed.

Lemma weather_from_text_sound_witness :
  exists p t r,
    Raw.message reply_pune =
      Some (p ++ u "Weather in " ++ u "Pune" ++ u " is " ++ u "Clear"
            ++ u " with temperature " ++ t ++ u "°C" ++ r) /\
    t <> [].
Proof.
  destruct (@weather_from_text_sound initial [] Started 200 reply_pune
              {| location := u "Pune"; condition := u "Clear";
                 temp_c := OfString (u "30.5") |}
              eq_refl eq_refl eq_refl)
    as (p & t & r & Hm & _ & Hne & _).
  exists p, t, r. split; [exact Hm|exact Hne].
Defined.

(* ===================================================================== *)
(** * The redirect on the landing page *)
(* ===================================================================== *)

(** X12. A reply that asks for a redirect and has no audio (no [audio_url],
    or an empty one) navigates at once, exactly once, and starts no playback
    and sets no [onended] handler. *)
Theorem redirect_without_audio (h : Home.World) (play : PlayOutcome)
  (status : N) (data : Raw.AgentResponse) (url : jsstring) :
  ok status = true ->
  has_audio data = false ->
  asked data = Some url ->
  let h' := run (Home.sendToBackend (Response status (Json data)) play) h in
  navigations (Home.trace h') = url :: navigations (Home.trace h) /\
  plays (Home.trace h') = plays (Home.trace h) /\
  Home.onended h' = Home.onended h.
Proof.
  intros Hok Ha Hu h'. subst h'. unfold run.
  rewrite HomeFacts.sendToBackend_success by exact Hok.
  cbn [snd Home.trace Home.onended].
  rewrite HomeMore.playEvents_cases, Ha, Hu.
  unfold Home.playHandlers, has_audio in *.
  destruct (Raw.audio_url data) as [a|]; [rewrite Ha|]; repeat split;
    now destruct play.
Qed.

Lemma redirect_without_audio_witness :
  navigations
    (Home.trace
       (run (Home.sendToBackend
               (Response 200 (Json (with_redirect reply_field (Some true)
                                      (Some (u "/irrigation")))))
               Started) Home.initial))
  = [u "/irrigation"].
Proof.
  exact (proj1 (@redirect_without_audio Home.initial Started 200
                  (with_redirect reply_field (Some true) (Some (u "/irrigation")))
                  (u "/irrigation") eq_refl eq_refl eq_refl)).
Defined.

(** X13. When playback of the reply starts, [sendToBackend] itself does not
    navigate: it sets an [onended] handler, and the redirect happens when
    that audio ends. *)
Theorem redirect_after_playback (h : Home.World) (status : N)
  (data : Raw.AgentResponse) (url : jsstring) :
  ok status = true ->
  has_audio data = true ->
  asked data = Some url ->
  let h' := run (Home.sendToBackend (Response status (Json data)) Started) h in
  navigations (Home.trace h') = navigations (Home.trace h) /\
  Home.onended h' = Home.onended h ++ [data] /\
  navigations
    (Home.trace (run (Home.audio_ended (length (Home.onended h))) h'))
  = url :: navigations (Home.trace h).
Proof.
  intros Hok Ha Hu h'. subst h'. unfold run.
  rewrite HomeFacts.sendToBackend_success by exact Hok.
  cbn [snd Home.trace Home.onended].
  rewrite HomeMore.playEvents_cases, Ha.
  assert (Hh : Home.playHandlers data Started (Home.onended h)
               = Home.onended h ++ [data]).
  { unfold Home.playHandlers, has_audio in *.
    destruct (Raw.audio_url data) as [a|]; [now rewrite Ha|discriminate]. }
  rewrite Hh. split; [reflexivity|]. split; [reflexivity|].
  unfold Home.audio_ended, bind. cbn [get Home.onended].
  rewrite nth_error_app2, Nat.sub_diag by lia. cbn [nth_error].
  unfold Home.redirectIfAsked, asked, when in *.
  destruct (Raw.redirect data) as [[|]|]; try discriminate.
  destruct (Raw.redirect_url data) as [url'|]; try discriminate.
  destruct (str_truthy url'); [|discriminate].
  inversion Hu; subst. reflexivity.
Qed.

Lemma redirect_after_playback_witness :
  let h' :=
    run (Home.sendToBackend (Response 200 (Json Home.reply_redirect)) Started)
      Home.initial in
  navigations (Home.trace h') = [] /\
  navigations (Home.trace (run (Home.audio_ended 0) h')) = [u "/irrigation"].
Proof.
  destruct (@redirect_after_playback Home.initial 200 Home.reply_redirect
              (u "/irrigation") eq_refl eq_refl eq_refl) as (H1 & _ & H2).
  split; [exact H1|exact H2].
Defined.

(** X14. [sendToBackend] never navigates when the request fails, nor when
    the reply does not ask for it ([redirect] absent or false, or
    [redirect_url] absent or empty), however playback goes. *)
Theorem no_redirect_unasked (h : Home.World) (net : FetchOutcome)
  (play : PlayOutcome) :
  succeeded net = false \/
  (exists status data, net = Response status (Json data) /\ asked data = None) ->
  navigations (Home.trace (run (Home.sendToBackend net play) h))
  = navigations (Home.trace h).
Proof.
  intros H.
  destruct (IrrigationMore.failure_or_success net)
    as [(err & Herr & _) | (status & data & -> & Hok & Hs)].
  - unfold run. now rewrite (@HomeMore.sendToBackend_failed h net play err Herr).
  - destruct H as [H | (status' & data' & Heq & Hu)]; [congruence|].
    inversion Heq; subst status' data'.
    unfold run. rewrite HomeFacts.sendToBackend_success by exact Hok.
    cbn [snd Home.trace]. rewrite HomeMore.playEvents_cases, Hu.
    now destruct (has_audio data), play.
Qed.

Lemma no_redirect_unasked_witness :
  navigations
    (Home.trace
       (run (Home.sendToBackend
               (Response 200
                  (Json (with_redirect Home.reply_redirect (Some false)
                           (Some (u "/irrigation")))))
               (Rejected Home.NotAllowedError)) Home.initial))
  = [].
Proof.
  apply (@no_redirect_unasked Home.initial).
  right. eexists _, _. split; reflexivity.
Defined.

(* ===================================================================== *)
(** * Starting and stopping, on both pages *)
(* ===================================================================== *)

(** X15. From any state, Start with the microphone granted gives a recording
    page with an empty chunk buffer, and Stop then gives an idle page again
    with its recorder inactive and the [stop] task queued; no request has
    been made yet at that point. *)
Theorem start_then_stop (strict : bool) (w : World) (h : Home.World) :
  let w1 := run (startRecording Granted Constructed) w in
  let w2 := run (stopRecording strict) w1 in
  let h1 := run (Home.startRecording Granted Constructed) h in
  let h2 := run (Home.stopRecording strict) h1 in
  (is_recording w1 = true /\ audioChunksRef w1 = [] /\
   voiceControl w1 = StopButton) /\
  (idle w2 = true /\ trace w2 = trace w /\
   nth_error (recorders w2) (length (recorders w))
   = Some {| MediaRecorder.state := MediaRecorder.inactive;
             MediaRecorder.stop_task := true;
             MediaRecorder.closure := query w |}) /\
  (Home.is_recording h1 = true /\ Home.audioChunksRef h1 = [] /\
   Home.voiceControl h1 = StopButton) /\
  (Home.idle h2 = true /\ Home.trace h2 = Home.trace h /\
   nth_error (Home.recorders h2) (length (Home.recorders h))
   = Some {| MediaRecorder.state := MediaRecorder.inactive;
             MediaRecorder.stop_task := true;
             MediaRecorder.closure := tt |}).
Proof.
  intros w1 w2 h1 h2. subst w2 h2 w1 h1. unfold run.
  rewrite IrrigationFacts.startRecording_granted.
  rewrite HomeFacts.home_startRecording_granted. cbn [snd].
  rewrite (@IrrigationFacts.stopRecording_eq strict _ (length (recorders w))
             (MediaRecorder.start (MediaRecorder.create (query w))));
    [|reflexivity|apply MediaRecorderFacts.nth_error_last|reflexivity].
  rewrite (@HomeFacts.home_stopRecording_eq strict _ (length (Home.recorders h))
             (MediaRecorder.start (MediaRecorder.create tt)));
    [|reflexivity|apply MediaRecorderFacts.nth_error_last|reflexivity].
  cbn [snd recorders Home.recorders].
  rewrite !MediaRecorderFacts.update_last.
  unfold is_recording, idle, active, Home.is_recording, Home.idle, Home.active,
    voiceControl, Home.voiceControl.
  cbn [recording mediaRecorderRef recorders audioChunksRef trace
       Home.recording Home.mediaRecorderRef Home.recorders Home.audioChunksRef
       Home.trace].
  rewrite !MediaRecorderFacts.nth_error_last.
  repeat split.
Qed.

(** X16. When the microphone is refused or the recorder cannot be made,
    [startRecording] logs the error and alerts, and the page is otherwise
    exactly as it was: an idle page stays idle, with its buffer. *)
Theorem start_refused (w : World) (h : Home.World) (mic : MicOutcome)
  (ctor : RecorderOutcome) (e : Error) :
  mic = Refused e \/ (mic = Granted /\ ctor = Unsupported e) ->
  let w' := run (startRecording mic ctor) w in
  let h' := run (Home.startRecording mic ctor) h in
  (idle w', is_recording w', audioChunksRef w', mediaRecorderRef w', recorders w')
  = (idle w, is_recording w, audioChunksRef w, mediaRecorderRef w, recorders w) /\
  trace w' =
    Alert (u "Microphone access is required to use voice features.")
    :: ConsoleError (u "Mic access error:") e :: trace w /\
  (Home.idle h', Home.is_recording h', Home.audioChunksRef h',
   Home.mediaRecorderRef h', Home.recorders h')
  = (Home.idle h, Home.is_recording h, Home.audioChunksRef h,
     Home.mediaRecorderRef h, Home.recorders h) /\
  Home.trace h' =
    Alert (u "Microphone access is required to use voice features.")
    :: ConsoleError (u "❌ Mic access error:") e :: Home.trace h.
Proof.
  intros Hfail w' h'. subst w' h'. unfold run.
  rewrite (IrrigationFacts.startRecording_failed w Hfail).
  rewrite (HomeFacts.home_startRecording_failed h Hfail).
  repeat split.
Qed.

Lemma start_refused_witness :
  idle (run (startRecording (Refused Home.NotAllowedError) Constructed) initial)
  = true.
Proof.
  exact (f_equal (fun t => fst (fst (fst (fst t))))
           (proj1 (@start_refused initial Home.initial
                     (Refused Home.NotAllowedError) Constructed
                     Home.NotAllowedError (or_introl eq_refl)))).
Defined.

(** X17. The error logged for a refused status names that status: two
    submissions refused with different statuses leave different traces. *)
Theorem status_in_error (w : World) (fd : FormData) (play : PlayOutcome)
  (s1 s2 : N) (b1 b2 : Body) :
  ok s1 = false ->
  ok s2 = false ->
  trace (run (fetchAgent (Response s1 b1) play fd) w)
  = trace (run (fetchAgent (Response s2 b2) play fd) w) ->
  s1 = s2.
Proof.
  intros H1 H2. unfold run.
  rewrite !IrrigationFacts.fetchAgent_refused by assumption.
  cbn [snd trace]. intros H. inversion H as [Hd].
  now apply JsFacts.decimal_inj.
Qed.

Lemma status_in_error_witness : 500%N = 500%N.
Proof.
  exact (@status_in_error initial [] Started 500 500 (NotJson Home.NotAllowedError)
           (Json reply_field) eq_refl eq_refl eq_refl).
Defined.

(* ===================================================================== *)
(** * Completeness of the weather pattern, and sessions in a row *)
(* ===================================================================== *)

Module RegExpComplete.
Import RegExp.

Section Repeat.
Variable c : cclass.
Variable least : nat.
Variable k : jsstring -> option (list jsstring * jsstring).

Lemma close_some (taken s : jsstring) caps rest :
  (least <= length taken)%nat -> k s = Some (caps, rest) ->
  close least k taken s = Some (taken :: caps, rest).
Proof.
  intros Hl Hk. unfold close.
  destruct (Nat.leb_spec least (length taken)); [|lia]. now rewrite Hk.
Qed.

(** If some run of the class can be taken so that the rest of the pattern
    accepts what follows, a greedy group finds a match, and so does a lazy
    one (not always with that run). *)
Lemma greedy_complete (run s' taken : jsstring) caps rest :
  Forall (fun x => in_class c x = true) run ->
  (least <= length (taken ++ run))%nat ->
  k s' = Some (caps, rest) ->
  exists r, greedy c least k taken (run ++ s') = Some r.
Proof.
  intros Hrun. revert taken.
  induction Hrun as [|x run Hx Hrun IH]; intros taken Hlen Hk.
  - rewrite app_nil_r in Hlen. cbn [app].
    pose proof (@close_some taken s' caps rest Hlen Hk) as Hc.
    destruct s' as [|y s']; cbn; [eauto|].
    destruct (in_class c y); [|eauto].
    destruct (greedy c least k (taken ++ [y]) s'); eauto.
  - cbn. rewrite Hx.
    destruct (IH (taken ++ [x])) as [r Hr];
      [now rewrite <- app_assoc|exact Hk|].
    rewrite Hr. eauto.
Qed.

Lemma lazy_complete (run s' taken : jsstring) caps rest :
  Forall (fun x => in_class c x = true) run ->
  (least <= length (taken ++ run))%nat ->
  k s' = Some (caps, rest) ->
  exists r, lazy_ c least k taken (run ++ s') = Some r.
Proof.
  intros Hrun. revert taken.
  induction Hrun as [|x run Hx Hrun IH]; intros taken Hlen Hk.
  - rewrite app_nil_r in Hlen. cbn [app].
    pose proof (@close_some taken s' caps rest Hlen Hk) as Hc.
    destruct s' as [|y s']; cbn; rewrite Hc; eauto.
  - cbn. destruct (close least k taken (x :: run ++ s')); [eauto|].
    rewrite Hx. apply IH; [now rewrite <- app_assoc|exact Hk].
Qed.
End Repeat.

End RegExpComplete.

Module IrrigationComplete.

(** Where the text reads as the weather pattern says, the pattern matches. *)
Lemma weatherRe_here (loc cond t rest : jsstring) :
  Forall (fun x => RegExp.in_class RegExp.Dot x = true) loc ->
  Forall (fun x => RegExp.in_class RegExp.Dot x = true) cond ->
  Forall (fun x => RegExp.in_class RegExp.DigitDot x = true) t ->
  t <> [] ->
  exists r,
    RegExp.match_here weatherRe
      (u "Weather in " ++ loc ++ u " is " ++ cond
       ++ u " with temperature " ++ t ++ u "°C" ++ rest) = Some r.
Proof.
  intros Hloc Hcond Ht Hne.
  unfold weatherRe. cbn [RegExp.match_here].
  rewrite RegExpFacts.strip_prefix_app.
  assert (H3 : RegExp.match_here [RegExp.Lit (u "°C")] (u "°C" ++ rest)
               = Some ([], rest)).
  { cbn [RegExp.match_here]. now rewrite RegExpFacts.strip_prefix_app. }
  destruct (@RegExpComplete.greedy_complete RegExp.DigitDot 1
              (RegExp.match_here [RegExp.Lit (u "°C")])
              t (u "°C" ++ rest) [] [] rest Ht) as [[caps2 rest2] H2];
    [destruct t; [congruence|cbn; lia]|exact H3|].
  assert (H2' : RegExp.match_here
                  [RegExp.Lit (u " with temperature ");
                   RegExp.Group RegExp.Greedy RegExp.DigitDot 1;
                   RegExp.Lit (u "°C")]
                  (u " with temperature " ++ t ++ u "°C" ++ rest)
                = Some (caps2, rest2)).
  { cbn [RegExp.match_here]. now rewrite RegExpFacts.strip_prefix_app. }
  destruct (@RegExpComplete.greedy_complete RegExp.Dot 0
              (RegExp.match_here
                 [RegExp.Lit (u " with temperature ");
                  RegExp.Group RegExp.Greedy RegExp.DigitDot 1;
                  RegExp.Lit (u "°C")])
              cond (u " with temperature " ++ t ++ u "°C" ++ rest) []
              caps2 rest2 Hcond) as [[caps1 rest1] H1];
    [cbn; lia|exact H2'|].
  apply (@RegExpComplete.lazy_complete RegExp.Dot 0
           (RegExp.match_here
              [RegExp.Lit (u " is "); RegExp.Group RegExp.Greedy RegExp.Dot 0;
               RegExp.Lit (u " with temperature ");
               RegExp.Group RegExp.Greedy RegExp.DigitDot 1;
               RegExp.Lit (u "°C")])
           loc (u " is " ++ cond ++ u " with temperature " ++ t ++ u "°C" ++ rest)
           [] caps1 rest1 Hloc); [cbn; lia|].
  cbn [RegExp.match_here]. now rewrite RegExpFacts.strip_prefix_app.
Qed.

(** What one session posts and leaves in the question box. *)
Lemma session_posts (strict : bool) (w : World) (chunks : list Blob)
  (last : Blob) (net : FetchOutcome) (play : PlayOutcome) :
  let w' := run (session strict chunks last net play) w in
  posts (trace w') =
    (backend ++ u "/agent",
     voiceForm (query w) (filter has_data (chunks ++ [last])))
    :: posts (trace w) /\
  query w' = query w.
Proof.
  intros w'. subst w'.
  set (fd := voiceForm (query w) (filter has_data (chunks ++ [last]))).
  set (w1 := at_submission w (chunks ++ [last])).
  assert (E : run (session strict chunks last net play) w
              = run (fetchAgent net play fd) w1).
  { unfold run. now rewrite IrrigationFacts.session_eq. }
  rewrite E. clear E. split.
  - destruct (IrrigationFacts.fetchAgent_trace w1 net play fd)
      as (evs & -> & Hevs).
    unfold posts at 1. rewrite flat_map_app. fold (posts evs).
    now rewrite (IrrigationMore.posts_nil _ Hevs).
  - destruct (IrrigationMore.failure_or_success net)
      as [(err & Herr & _) | (status & data & -> & Hok & _)].
    + unfold run.
      now rewrite (@IrrigationMore.fetchAgent_failed w1 net play fd err Herr).
    + now destruct (@IrrigationMore.fetchAgent_done w1 fd play status data Hok)
        as (-> & _).
Qed.

Lemma home_session_posts (strict : bool) (h : Home.World)
  (chunks : list Blob) (last : Blob) (net : FetchOutcome) (play : PlayOutcome) :
  posts (Home.trace (run (Home.session strict chunks last net play) h)) =
    (backend ++ u "/agent",
     [(u "audio",
       File (new_Blob (filter has_data (chunks ++ [last])) (u "audio/webm"))
         (u "customer_audio.webm"))])
    :: posts (Home.trace h).
Proof.
  unfold run. rewrite HomeFacts.home_session_eq.
  destruct (HomeFacts.sendToBackend_trace
              (Home.at_submission h (chunks ++ [last])) net play)
    as (evs & Ht & Hevs).
  unfold run in Ht. rewrite Ht.
  unfold posts at 1. rewrite flat_map_app. fold (posts evs).
  now rewrite (IrrigationMore.posts_nil _ Hevs).
Qed.

End IrrigationComplete.

(** X18. With no [weather] object, no weather is displayed exactly when the
    message (if there is one) reads
    [Weather in <location> is <condition> with temperature <t>°C] nowhere,
    for any location and condition without a line break and any non-empty
    run [t] of digits and full stops. *)
Theorem weather_absent_iff (w : World) (fd : FormData) (play : PlayOutcome)
  (status : N) (data : Raw.AgentResponse) :
  ok status = true ->
  Raw.weather data = None ->
  weather (run (fetchAgent (Response status (Json data)) play fd) w) = None <->
  (forall p loc cond t r,
      Raw.message data =
        Some (p ++ u "Weather in " ++ loc ++ u " is " ++ cond
              ++ u " with temperature " ++ t ++ u "°C" ++ r) ->
      Forall (fun c => RegExp.in_class RegExp.Dot c = true) loc ->
      Forall (fun c => RegExp.in_class RegExp.Dot c = true) cond ->
      Forall (fun c => RegExp.in_class RegExp.DigitDot c = true) t ->
      t = []).
Proof.
  intros Hok Hw.
  rewrite IrrigationFacts.shown_weather by exact Hok. rewrite Hw.
  destruct (Raw.message data) as [msg|]; [|split; [discriminate|reflexivity]].
  destruct (RegExp.exec weatherRe msg) as [m|] eqn:He.
  - destruct (RegExpMore.exec_inv _ _ He)
      as (p & s1 & caps & rest & -> & Hm & _).
    destruct (IrrigationMore.weatherRe_here_inv _ Hm)
      as (loc & cond & t & -> & _ & Hloc & Hcond & Ht & Hne).
    assert (Hs : str_truthy
                   (p ++ u "Weather in " ++ loc ++ u " is " ++ cond
                    ++ u " with temperature " ++ t ++ u "°C" ++ rest) = true)
      by (now destruct p).
    rewrite Hs. split; [discriminate|].
    intros H. now specialize (H p loc cond t rest eq_refl Hloc Hcond Ht).
  - split; [|reflexivity]. intros _ p loc cond t r Heq Hloc Hcond Ht.
    assert (Hmsg : msg = p ++ u "Weather in " ++ loc ++ u " is " ++ cond
                         ++ u " with temperature " ++ t ++ u "°C" ++ r)
      by congruence.
    destruct t as [|c t]; [reflexivity|exfalso].
    pose proof (proj1 (RegExpMore.exec_none _ _) He p _ Hmsg) as Hn.
    destruct (@IrrigationComplete.weatherRe_here loc cond (c :: t) r
                Hloc Hcond Ht) as [r0 Hr0]; [discriminate|].
    rewrite Hr0 in Hn. discriminate.
Qed.

Lemma weather_absent_iff_witness :
  weather (run (fetchAgent (Response 200 (Json reply_field)) Started []) initial)
  = None <->
  (forall p loc cond t r,
      Raw.message reply_field =
        Some (p ++ u "Weather in " ++ loc ++ u " is " ++ cond
              ++ u " with temperature " ++ t ++ u "°C" ++ r) ->
      Forall (fun c => RegExp.in_class RegExp.Dot c = true) loc ->
      Forall (fun c => RegExp.in_class RegExp.Dot c = true) cond ->
      Forall (fun c => RegExp.in_class RegExp.DigitDot c = true) t ->
      t = []).
Proof.
  exact (@weather_absent_iff initial [] Started 200 reply_field
           eq_refl eq_refl).
Defined.

(** X19. Two sessions in a row post two blobs, each made of its own chunks
    only: the buffer a submission leaves behind is emptied by the next
    Start. On the irrigation page both carry the question that is in the box,
    which the sessions do not change. *)
Theorem sessions_in_a_row (strict : bool) (w : World) (h : Home.World)
  (chunks1 chunks2 : list Blob) (last1 last2 : Blob)
  (net1 net2 : FetchOutcome) (play1 play2 : PlayOutcome) :
  let w1 := run (session strict chunks1 last1 net1 play1) w in
  let w2 := run (session strict chunks2 last2 net2 play2) w1 in
  let h1 := run (Home.session strict chunks1 last1 net1 play1) h in
  let h2 := run (Home.session strict chunks2 last2 net2 play2) h1 in
  posts (trace w2) =
    (backend ++ u "/agent",
     voiceForm (query w) (filter has_data (chunks2 ++ [last2])))
    :: (backend ++ u "/agent",
        voiceForm (query w) (filter has_data (chunks1 ++ [last1])))
    :: posts (trace w) /\
  posts (Home.trace h2) =
    (backend ++ u "/agent",
     [(u "audio",
       File (new_Blob (filter has_data (chunks2 ++ [last2])) (u "audio/webm"))
         (u "customer_audio.webm"))])
    :: (backend ++ u "/agent",
        [(u "audio",
          File (new_Blob (filter has_data (chunks1 ++ [last1])) (u "audio/webm"))
            (u "customer_audio.webm"))])
    :: posts (Home.trace h).
Proof.
  intros w1 w2 h1 h2. subst w2 h2 w1 h1. split.
  - destruct (IrrigationComplete.session_posts strict
                (run (session strict chunks1 last1 net1 play1) w)
                chunks2 last2 net2 play2) as [-> _].
    destruct (IrrigationComplete.session_posts strict w chunks1 last1 net1 play1)
      as [-> ->].
    reflexivity.
  - now rewrite !IrrigationComplete.home_session_posts.
Qed.
